(** * IT Provisioning Dashboard API: a shallow embedding of [main.py]

    The handlers of [main.py] are embedded as computations in a small
    state-and-exception monad over a [world] made of the module-level
    database handle [db] (which may be [None]) and the list of driver
    calls issued so far.  Documents are Python dicts (finite maps from
    field names to dynamically typed values); collections are lists of
    documents in store order. *)

From Stdlib Require Import ZArith NArith Ascii String Strings.Byte.
From stdpp Require Import base option list strings pretty gmap fin_maps.

Set Warnings "-register-all".

Local Open Scope string_scope.
Local Open Scope list_scope.

(** ** Dynamically typed values *)

(** What a field of a stored document, or an entry of a JSON payload, can
    hold.  [VOid] is a BSON ObjectId; nested documents keep their field
    order, as BSON does. *)
Inductive value : Type :=
| VNone
| VBool (b : bool)
| VInt (z : Z)
| VStr (s : string)
| VOid (o : N)
| VList (l : list value)
| VDict (kvs : list (string * value)).

Definition value_eq_dec : ∀ x y : value, {x = y} + {x ≠ y}.
Proof.
  fix IH 1.
  intros x y; destruct x, y; try (right; discriminate).
  - left; reflexivity.
  - destruct (bool_dec b b0) as [->|Hn]; [left; reflexivity | right; congruence].
  - destruct (Z.eq_dec z z0) as [->|Hn]; [left; reflexivity | right; congruence].
  - destruct (string_dec s s0) as [->|Hn]; [left; reflexivity | right; congruence].
  - destruct (N.eq_dec o o0) as [->|Hn]; [left; reflexivity | right; congruence].
  - destruct (List.list_eq_dec IH l l0) as [->|Hn];
      [left; reflexivity | right; congruence].
  - assert (Hp : ∀ p q : string * value, {p = q} + {p ≠ q}).
    { intros [k v] [k' v'].
      destruct (string_dec k k') as [->|Hn]; [|right; congruence].
      destruct (IH v v') as [->|Hn]; [left; reflexivity | right; congruence]. }
    destruct (List.list_eq_dec Hp kvs kvs0) as [->|Hn];
      [left; reflexivity | right; congruence].
Defined.

#[global] Instance value_eq_decision : EqDecision value := value_eq_dec.

(** A Python dict with string keys. *)
Abbreviation doc := (gmap string value).

(** Python truthiness of a dict and of an optional string. *)
Definition dict_truthy (d : doc) : bool := negb (bool_decide (d = ∅)).

Definition str_truthy (s : option string) : bool :=
  match s with
  | None => false
  | Some s => negb (String.eqb s EmptyString)
  end.

(** ** Strings *)

Definition ascii_lower (c : ascii) : ascii :=
  let n := N_of_ascii c in
  if (65 <=? n)%N && (n <=? 90)%N then ascii_of_N (n + 32) else c.

(** [str.lower()] *)
Fixpoint str_lower (s : string) : string :=
  match s with
  | EmptyString => EmptyString
  | String c r => String (ascii_lower c) (str_lower r)
  end.

(** [str.startswith(p)] *)
Fixpoint startswith (p s : string) : bool :=
  match p, s with
  | EmptyString, _ => true
  | String a p', String b s' => Ascii.eqb a b && startswith p' s'
  | String _ _, EmptyString => false
  end.

(** [s.split(" ", 1)]: cut at the first space, if there is one. *)
Fixpoint split_space1 (s : string) : list string :=
  match s with
  | EmptyString => [EmptyString]
  | String c r =>
      if Ascii.eqb c " "%char then [EmptyString; r]
      else match split_space1 r with
           | h :: t => String c h :: t
           | [] => [String c EmptyString]
           end
  end.

(** ** Random tokens: [secrets.token_hex] *)

Definition hex_digit (n : N) : ascii :=
  if (n <? 10)%N then ascii_of_N (48 + n) else ascii_of_N (87 + n).

Definition hex_of_byte (b : byte) : string :=
  let n := Byte.to_N b in
  String (hex_digit (n / 16)) (String (hex_digit (n mod 16)) EmptyString).

(** [binascii.hexlify]: two lower-case hexadecimal digits per byte. *)
Fixpoint hexlify (bs : list byte) : string :=
  match bs with
  | [] => EmptyString
  | b :: r => hex_of_byte b +:+ hexlify r
  end.

(** [secrets.token_hex(nbytes)] draws [nbytes] bytes from the operating
    system and prints them in hexadecimal; the drawn bytes are an input of
    the model. *)
Definition token_hex (entropy : list byte) : string := hexlify entropy.

(** ** Exceptions and the world the handlers run in *)

Inductive error : Type :=
| HTTPException (status_code : nat) (detail : string)
| KeyError (key : string)
| IndexError
| ValidationError (field : string)
| NoCollection
| StoreUnavailable.

Inductive outcome (A : Type) : Type :=
| Returns (a : A)
| Raises (e : error).
Arguments Returns {A} a.
Arguments Raises {A} e.

(** A query filter [{key: v}]: every filter of [main.py] has one key. *)
Definition query : Type := string * value.

(** The calls made to the database driver, in order. *)
Inductive store_call : Type :=
| FindOne (coll : string) (q : query)
| InsertOne (coll : string) (d : doc)
| Find (coll : string) (q : query) (limit : nat).

(** The store: named collections, each a list of documents in store order,
    and the next ObjectId the driver will hand out. *)
Record database : Type := Database {
  colls : gmap string (list doc);
  next_oid : N
}.

(** [db] is the module-level handle imported from [database]: [None] when
    the store is not configured. *)
Record world : Type := World {
  db : option database;
  calls : list store_call
}.

Definition M (A : Type) : Type := world → outcome A * world.

Definition ret {A} (a : A) : M A := λ w, (Returns a, w).
Definition raise {A} (e : error) : M A := λ w, (Raises e, w).
Definition bind {A B} (c : M A) (k : A → M B) : M B :=
  λ w, match c w with
       | (Returns a, w') => k a w'
       | (Raises e, w') => (Raises e, w')
       end.

Declare Scope handler_scope.
Delimit Scope handler_scope with handler.
Notation "'let*' x := c 'in' k" := (bind c (λ x, k))
  (at level 10, x name, c at level 100, k at level 200) : handler_scope.
Notation "c ;; k" := (bind c (λ _, k))
  (at level 100, k at level 200, right associativity) : handler_scope.
Local Open Scope handler_scope.

(** ** The document store driver *)

Definition docs_of (d : database) (name : string) : list doc :=
  default [] (colls d !! name).

(** Exact match of a document against [{key: v}]. *)
Definition matches (q : query) (d : doc) : bool :=
  bool_decide (d !! q.1 = Some q.2).

(** First matching document in store order, if any. *)
Fixpoint first_match (q : query) (ds : list doc) : option doc :=
  match ds with
  | [] => None
  | d :: r => if matches q d then Some d else first_match q r
  end.

(** The driver gives a document that carries no [_id] a new ObjectId. *)
Definition with_id (o : N) (d : doc) : doc :=
  match d !! "_id" with
  | Some _ => d
  | None => <["_id" := VOid o]> d
  end.

Definition store_insert (name : string) (d : doc) (s : database) : database :=
  {| colls := <[name := docs_of s name ++ [with_id (next_oid s) d]]> (colls s);
     next_oid := N.succ (next_oid s) |}.

(** A collection handle is the collection's name; [get_collection] below
    hands one out only when [db] is set, so the [NoCollection] branches of
    the driver calls are never taken by the handlers. *)

(** [Collection.find_one(q)] on the collection called [name]. *)
Definition find_one (name : string) (q : query) : M (option doc) :=
  λ w, match db w with
       | Some s =>
           (Returns (first_match q (docs_of s name)),
            {| db := Some s; calls := calls w ++ [FindOne name q] |})
       | None => (Raises NoCollection, w)
       end.

(** [Collection.insert_one(d)]; the result is the inserted [_id]. *)
Definition insert_one (name : string) (d : doc) : M value :=
  λ w, match db w with
       | Some s =>
           (Returns (default VNone (with_id (next_oid s) d !! "_id")),
            {| db := Some (store_insert name d s);
               calls := calls w ++ [InsertOne name d] |})
       | None => (Raises NoCollection, w)
       end.

(** Python truthiness of what [find_one] returns. *)
Definition found (o : option doc) : bool :=
  match o with
  | None => false
  | Some d => dict_truthy d
  end.

(** [d.get(k)] and [d[k]]. *)
Definition dict_get (d : doc) (k : string) : value := default VNone (d !! k).

Definition dict_item (d : doc) (k : string) : M value :=
  match d !! k with
  | Some v => ret v
  | None => raise (KeyError k)
  end.

(** ** Request and response schemas *)

Record LoginRequest : Type := {
  req_nik : string;
  req_password : string
}.

Record LoginResponse : Type := {
  resp_token : string;
  resp_nik : string;
  resp_name : option string;
  resp_division : option string
}.

Record TaskCreateRequest : Type := {
  req_type : string;
  req_payload : option (list (string * value))
}.

Record TaskResponse : Type := {
  resp_id : string;
  resp_status : string
}.

(** Validation of a [str] and of an [Optional[str]] field when a response
    model is built. *)
Definition validate_str (field : string) (v : value) : M string :=
  match v with
  | VStr s => ret s
  | _ => raise (ValidationError field)
  end.

Definition validate_opt_str (field : string) (v : value) : M (option string) :=
  match v with
  | VNone => ret None
  | VStr s => ret (Some s)
  | _ => raise (ValidationError field)
  end.

Definition make_LoginResponse (token : string) (nik name division : value)
  : M LoginResponse :=
  let* n := validate_str "nik" nik in
  let* nm := validate_opt_str "name" name in
  let* dv := validate_opt_str "division" division in
  ret {| resp_token := token; resp_nik := n;
         resp_name := nm; resp_division := dv |}.

(** ** Helpers *)

Definition get_collection (name : string) : M string :=
  λ w, match db w with
       | None => (Raises (HTTPException 500 "Database not configured"), w)
       | Some _ => (Returns name, w)
       end.

Definition auth_dependency (token : option string) : M value :=
  if negb (str_truthy token) then
    raise (HTTPException 401 "Token required")
  else
    let* coll := get_collection "session" in
    let* doc := find_one coll ("token", VStr (default EmptyString token)) in
    if negb (found doc) then
      raise (HTTPException 401 "Invalid token")
    else
      dict_item (default ∅ doc) "nik".

(** The token carried by [authorization], as both protected routes
    extract it: [None] unless the value starts with "bearer " in any
    letter case. *)
Definition bearer_token (authorization : option string) : M (option string) :=
  if str_truthy authorization
     && startswith "bearer " (str_lower (default EmptyString authorization)) then
    match split_space1 (default EmptyString authorization) !! 1%nat with
    | Some t => ret (Some t)
    | None => raise IndexError
    end
  else ret None.

(** ** Startup seeding *)

Definition demo_user : doc :=
  {[ "nik" := VStr "EMP001"; "name" := VStr "Demo User";
     "division" := VStr "IT"; "password" := VStr "12345";
     "is_active" := VBool true ]}.

Definition requested_user : doc :=
  {[ "nik" := VStr "555501254121"; "name" := VStr "User 555501254121";
     "division" := VStr "IT"; "password" := VStr "12345";
     "is_active" := VBool true ]}.

Definition seed_one (coll : string) (nik : string) (d : doc) : M unit :=
  let* u := find_one coll ("nik", VStr nik) in
  if negb (found u) then (insert_one coll d ;; ret tt) else ret tt.

Definition seed_employee : M unit :=
  λ w, match db w with
       | None => (Returns tt, w)
       | Some _ =>
           (let* coll := get_collection "employee" in
            seed_one coll "EMP001" demo_user ;;
            seed_one coll "555501254121" requested_user) w
       end.

(** ** Routes that need no store *)

Definition list_divisions : list string :=
  ["IT"; "Finance"; "HR"; "Marketing"; "Operations"].

(** ** Login *)

Definition login (payload : LoginRequest) (entropy : list byte)
  : M LoginResponse :=
  let* coll := get_collection "employee" in
  let* user := find_one coll ("nik", VStr (req_nik payload)) in
  if negb (found user) then
    raise (HTTPException 401 "NIK tidak ditemukan")
  else
    let user := default ∅ user in
    if negb (bool_decide (dict_get user "password" = VStr (req_password payload)))
    then raise (HTTPException 401 "Password salah")
    else
      let token := token_hex entropy in
      let* sess := get_collection "session" in
      let* nik := dict_item user "nik" in
      insert_one sess {[ "token" := VStr token; "nik" := nik ]} ;;
      let* nik := dict_item user "nik" in
      make_LoginResponse token nik (dict_get user "name")
                         (dict_get user "division").

(** ** Tasks *)

Definition task_types : list string :=
  ["install_packages"; "activate_windows"; "activate_office"].

Definition task_doc (nik : value) (payload : TaskCreateRequest) : doc :=
  {[ "nik" := nik;
     "type" := VStr (req_type payload);
     "status" := VStr "pending";
     "payload" := VDict (match req_payload payload with
                         | Some (kv :: kvs) => kv :: kvs
                         | _ => []
                         end) ]}.

Section Handlers.

(** Python's [str] on a stored value; for an ObjectId, its 24
    hexadecimal digits. *)
Variable py_str : value → string.

(** Modelled from the spec: [database.create_document] is not among the
    sources.  Section 4.1 gives [insertDocument(collection, doc) -> id],
    which fails with [StoreUnavailable] when the store is unconfigured
    and otherwise inserts the document and returns the identifier the
    store generated for it, here in the string form that
    [TaskResponse.id] requires. *)
Definition create_document (name : string) (d : doc) : M string :=
  λ w, match db w with
       | None => (Raises StoreUnavailable, w)
       | Some _ => (let* i := insert_one name d in ret (py_str i)) w
       end.

(** Modelled from the spec: [database.get_documents] is not among the
    sources.  Section 4.1 gives
    [findDocuments(collection, filter, limit) -> sequence of doc]: the
    documents that match the exact-match filter, in store order, cut at
    the limit; [StoreUnavailable] when the store is unconfigured. *)
Definition get_documents (name : string) (q : query) (limit : nat)
  : M (list doc) :=
  λ w, match db w with
       | None => (Raises StoreUnavailable, w)
       | Some s =>
           (Returns (take limit (List.filter (matches q) (docs_of s name))),
            {| db := Some s; calls := calls w ++ [Find name q limit] |})
       end.

Definition create_task (payload : TaskCreateRequest)
           (authorization : option string) : M TaskResponse :=
  let* token := bearer_token authorization in
  let* nik := auth_dependency token in
  if negb (bool_decide (req_type payload ∈ task_types)) then
    raise (HTTPException 400 "Invalid task type")
  else
    let* task_id := create_document "task" (task_doc nik payload) in
    ret {| resp_id := task_id; resp_status := "pending" |}.

(** The loop body of [list_my_tasks]: [t["id"] = str(t.pop("_id"))]
    when [t] has an [_id]. *)
Definition expose_id (t : doc) : doc :=
  match t !! "_id" with
  | Some i => <["id" := VStr (py_str i)]> (delete "_id" t)
  | None => t
  end.

Definition list_my_tasks (authorization : option string) : M (list doc) :=
  let* token := bearer_token authorization in
  let* nik := auth_dependency token in
  let* tasks := get_documents "task" ("nik", nik) 50 in
  ret (expose_id <$> tasks).

(** ** The service as a whole *)

(** What can happen to the world: the startup hook, a call of the session
    authenticator, and the three routes that reach the store, each with
    the inputs it is called on. *)
Inductive request : Type :=
| Startup
| Authenticate (token : option string)
| PostLogin (payload : LoginRequest) (entropy : list byte)
| PostTask (payload : TaskCreateRequest) (authorization : option string)
| GetTasks (authorization : option string).

Definition failure {A} (o : outcome A) : option error :=
  match o with
  | Returns _ => None
  | Raises e => Some e
  end.

(** Serving a request: the exception it ends in, if any, and the world
    it leaves. *)
Definition serve (r : request) (w : world) : option error * world :=
  match r with
  | Startup => prod_map failure id (seed_employee w)
  | Authenticate token => prod_map failure id (auth_dependency token w)
  | PostLogin payload entropy => prod_map failure id (login payload entropy w)
  | PostTask payload authorization =>
      prod_map failure id (create_task payload authorization w)
  | GetTasks authorization =>
      prod_map failure id (list_my_tasks authorization w)
  end.

Definition serve_all (rs : list request) (w : world) : world :=
  foldl (λ w r, (serve r w).2) w rs.

End Handlers.

(** The status code a failure is reported with: an [HTTPException]
    carries its own, any other exception is a server error. *)
Definition status_of (e : error) : nat :=
  match e with
  | HTTPException c _ => c
  | _ => 500
  end.

(** ** Specification vocabulary *)

(** The request is authenticated as [nik]: the token extracted from
    [authorization] passes the session authenticator, which leaves the
    world [w1]. *)
Definition authenticated (authorization : option string) (w : world)
    (nik : value) (w1 : world) : Prop :=
  ∃ token, bearer_token authorization w = (Returns token, w)
    ∧ auth_dependency token w = (Returns nik, w1).

(** A header value of the form [Bearer <token>]: the scheme in any letter
    case, one space, a non-empty token. *)
Definition bearer_form (a : string) : Prop :=
  ∃ scheme tok : string,
    a = scheme +:+ " " +:+ tok ∧ str_lower scheme = "bearer" ∧ tok ≠ EmptyString.

(** The session collection binds no record to [tok]. *)
Definition unbound_token (tok : string) (s : database) : Prop :=
  Forall (λ d : doc, d !! "token" ≠ Some (VStr tok)) (docs_of s "session").

(** [u] is the employee record of [nik]: the first record of the employee
    collection, in store order, whose identifier is [nik] (the only one
    when identifiers are unique). *)
Definition employee_record (nik : string) (s : database) (u : doc) : Prop :=
  ∃ pre post,
    docs_of s "employee" = pre ++ u :: post
    ∧ u !! "nik" = Some (VStr nik)
    ∧ Forall (λ d : doc, d !! "nik" ≠ Some (VStr nik)) pre.

(** A display field as the [Employee] schema types it: a string, or
    [None] (also when the field is missing). *)
Definition display_ok (v : value) : Prop := v = VNone ∨ ∃ s, v = VStr s.

Definition display (v : value) : option string :=
  match v with
  | VStr s => Some s
  | _ => None
  end.

(** The session record that login writes. *)
Definition session_doc (token nik : string) : doc :=
  {[ "token" := VStr token; "nik" := VStr nik ]}.

(** The store with every employee record rewritten by [f]. *)
Definition map_employees (f : doc → doc) (s : database) : database :=
  {| colls := <["employee" := f <$> docs_of s "employee"]> (colls s);
     next_oid := next_oid s |}.

Definition set_active (b : bool) (d : doc) : doc := <["is_active" := VBool b]> d.

(** The employee collection has no record for [nik]. *)
Definition unknown_nik (nik : string) (s : database) : Prop :=
  Forall (λ d : doc, d !! "nik" ≠ Some (VStr nik)) (docs_of s "employee").

#[global] Instance unknown_nik_dec (nik : string) (s : database) :
  Decision (unknown_nik nik s).
Proof. unfold unknown_nik. apply _. Defined.

(** Seeding as section 4.6 words it: insert the record into the employee
    collection only if no record with that identifier already exists. *)
Definition seed_if_absent (nik : string) (d : doc) (s : database) : database :=
  if decide (unknown_nik nik s) then store_insert "employee" d s else s.

(** Nothing is ever removed from a configured store: from [w] to [w'],
    every collection keeps its documents, in order, and may have gained
    some at the end. *)
Definition grows (w w' : world) : Prop :=
  ∀ s, db w = Some s →
    ∃ s', db w' = Some s'
      ∧ ∀ name, ∃ ext, docs_of s' name = docs_of s name ++ ext.

Definition append_only {A} (c : M A) : Prop := ∀ w, grows w (c w).2.

(** ** A sample run *)

(** An empty, configured store, and the world a new process starts in. *)
Definition empty_store : database := {| colls := ∅; next_oid := 0 |}.

Definition fresh_world : world := World (Some empty_store) [].

(** The fresh world after the startup hook has seeded it. *)
Definition seeded_world : world := (seed_employee fresh_world).2.

Definition seeded_store : database := default empty_store (db seeded_world).

(** A stand-in for Python's [str] with which the handlers can be run on
    examples: strings print as themselves, an ObjectId as its number. *)
Definition sample_str (v : value) : string :=
  match v with
  | VStr s => s
  | VOid o => pretty o
  | _ => EmptyString
  end.

(** A run used in the examples: the demo user logs in on the seeded
    world, drawing sixteen bytes 0x2a, and then files one task. *)
Definition demo_login : LoginRequest :=
  {| req_nik := "EMP001"; req_password := "12345" |}.

Definition demo_entropy : list byte := replicate 16 x2a%byte.

Definition demo_bearer : option string :=
  Some ("Bearer " +:+ token_hex demo_entropy).

Definition logged_in_world : world := (login demo_login demo_entropy seeded_world).2.

Definition logged_in_store : database := default empty_store (db logged_in_world).

Definition install_request : TaskCreateRequest :=
  {| req_type := "install_packages"; req_payload := None |}.

Definition reboot_request : TaskCreateRequest :=
  {| req_type := "reboot"; req_payload := None |}.

Definition authenticated_world : world :=
  (auth_dependency (Some (token_hex demo_entropy)) logged_in_world).2.

Definition tasked_world : world :=
  (create_task sample_str install_request demo_bearer logged_in_world).2.

Definition tasked_store : database := default empty_store (db tasked_world).

(** Two stores with irregular session collections: one whose only session
    lacks its identifier, one where two sessions carry the same token. *)
Definition orphan_store : database :=
  {| colls := {[ "session" := [ ({[ "token" := VStr "00ff" ]} : doc) ] ]};
     next_oid := 0 |}.

Definition duplicate_store : database :=
  {| colls := {[ "session" := [ session_doc "00ff" "EMP001";
                                session_doc "00ff" "555501254121" ] ]};
     next_oid := 0 |}.

(** A second employee logs in after the first, and a store in which the
    demo user already owns fifty tasks. *)
Definition other_login : LoginRequest :=
  {| req_nik := "555501254121"; req_password := "12345" |}.

Definition other_entropy : list byte := replicate 16 x07%byte.

Definition other_bearer : option string :=
  Some ("Bearer " +:+ token_hex other_entropy).

Definition shared_world : world :=
  (login other_login other_entropy logged_in_world).2.

Definition shared_store : database := default empty_store (db shared_world).

Definition full_store : database :=
  {| colls := {[ "session" := [ session_doc (token_hex demo_entropy) "EMP001" ];
                 "task" := replicate 50 (task_doc (VStr "EMP001") install_request) ]};
     next_oid := 100 |}.

(** ** How the protected routes are bound to a request *)

(** What matters here of an HTTP request: its headers, by lower-cased
    name, and the parameters of its query string. *)
Record http_request : Type := {
  http_headers : gmap string string;
  http_query : gmap string string
}.

(** Both protected routes declare [authorization: Optional[str] = None], a
    plain parameter with a default.  FastAPI fills such a parameter from
    the query string, by its name, and leaves the default when the query
    has no parameter of that name; a header is read only into a parameter
    declared with [Header], which [main.py] does not import.  The headers
    of the request take no part. *)
Definition authorization_argument (r : http_request) : option string :=
  http_query r !! "authorization".

Section Binding.

Variable py_str : value → string.

(** [POST /api/tasks] and [GET /api/tasks], from the request to the
    handler. *)
Definition post_api_tasks (r : http_request) (payload : TaskCreateRequest)
  : M TaskResponse :=
  create_task py_str payload (authorization_argument r).

Definition get_api_tasks (r : http_request) : M (list doc) :=
  list_my_tasks py_str (authorization_argument r).

End Binding.

(** Two requests of the demo user after login: one carries the bearer
    token in the query string and has no Authorization header, the other
    carries it in the Authorization header only. *)
Definition query_only_request : http_request :=
  {| http_headers := ∅;
     http_query := {[ "authorization" := "Bearer " +:+ token_hex demo_entropy ]} |}.

Definition header_only_request : http_request :=
  {| http_headers := {[ "authorization" := "Bearer " +:+ token_hex demo_entropy ]};
     http_query := ∅ |}.

(** ** The diagnostic route *)

(** The response dict of [test_database]; its six keys are fixed. *)
Record Diagnostics : Type := {
  diag_backend : string;
  diag_database : string;
  diag_database_url : option string;
  diag_database_name : option string;
  diag_connection_status : string;
  diag_collections : list string
}.

(** A Python string is held as the bytes of its UTF-8 encoding.  A
    character starts at every byte that is not a continuation byte
    (10xxxxxx) and owns the continuation bytes that follow it. *)
Definition is_continuation (c : ascii) : bool :=
  let n := N_of_ascii c in (128 <=? n)%N && (n <? 192)%N.

(** [len(s)]: the number of characters of [s]. *)
Fixpoint str_chars (s : string) : nat :=
  match s with
  | EmptyString => 0
  | String c r => (if is_continuation c then 0 else 1) + str_chars r
  end.

(** [s[:n]]: the first [n] characters of [s], each with all its bytes. *)
Fixpoint str_take (n : nat) (s : string) : string :=
  match s with
  | EmptyString => EmptyString
  | String c r =>
      if is_continuation c then String c (str_take n r)
      else match n with
           | O => EmptyString
           | S n' => String c (str_take n' r)
           end
  end.

(** [test_database] reads the environment through [os.getenv] and asks the
    driver for the collection names; [getenv] is the environment and
    [list_collection_names] what the driver call does, either the names or
    the text [str(e)] of the exception it raises.  Nothing else can raise
    inside the outer [try], so its handler is never entered. *)
Definition test_database (getenv : string → option string)
    (list_collection_names : string + list string) (w : world) : Diagnostics :=
  let response :=
    {| diag_backend := "✅ Running";
       diag_database := "❌ Not Available";
       diag_database_url := None;
       diag_database_name := None;
       diag_connection_status := "Not Connected";
       diag_collections := [] |} in
  match db w with
  | Some _ =>
      let url := if str_truthy (getenv "DATABASE_URL")
                 then "✅ Set" else "❌ Not Set" in
      let name := if str_truthy (getenv "DATABASE_NAME")
                  then "✅ Set" else "❌ Not Set" in
      match list_collection_names with
      | inr collections =>
          {| diag_backend := diag_backend response;
             diag_database := "✅ Connected & Working";
             diag_database_url := Some url;
             diag_database_name := Some name;
             diag_connection_status := diag_connection_status response;
             diag_collections := take 10 collections |}
      | inl e =>
          {| diag_backend := diag_backend response;
             diag_database := "⚠️ Connected but Error: " +:+ str_take 50 e;
             diag_database_url := Some url;
             diag_database_name := Some name;
             diag_connection_status := diag_connection_status response;
             diag_collections := diag_collections response |}
      end
  | None =>
      {| diag_backend := diag_backend response;
         diag_database := "⚠️ Available but not initialized";
         diag_database_url := diag_database_url response;
         diag_database_name := diag_database_name response;
         diag_connection_status := diag_connection_status response;
         diag_collections := diag_collections response |}
  end.

(** ** The collection schemas of [schemas.py] *)

(** Field checks of the models: a required [str], an [Optional[str]]
    (missing or [None] allowed), a [Literal] string with or without a
    default, a [bool] with a default, an [Optional[Dict]]. *)
Definition str_field (d : doc) (k : string) : bool :=
  match d !! k with
  | Some (VStr _) => true
  | _ => false
  end.

Definition opt_str_field (d : doc) (k : string) : bool :=
  match d !! k with
  | None | Some VNone | Some (VStr _) => true
  | _ => false
  end.

Definition literal_field (allowed : list string) (d : doc) (k : string) : bool :=
  match d !! k with
  | Some (VStr s) => bool_decide (s ∈ allowed)
  | _ => false
  end.

Definition literal_field_default (allowed : list string) (d : doc) (k : string)
  : bool :=
  match d !! k with
  | None => true
  | Some (VStr s) => bool_decide (s ∈ allowed)
  | _ => false
  end.

Definition bool_field_default (d : doc) (k : string) : bool :=
  match d !! k with
  | None | Some (VBool _) => true
  | _ => false
  end.

Definition opt_dict_field (d : doc) (k : string) : bool :=
  match d !! k with
  | None | Some VNone | Some (VDict _) => true
  | _ => false
  end.

(** [class Employee], [class Task], [class Session]: whether a document
    validates against the model; fields the model does not name, such as
    [_id], are ignored. *)
Definition Employee (d : doc) : bool :=
  str_field d "nik" && opt_str_field d "name" && opt_str_field d "division"
  && str_field d "password" && bool_field_default d "is_active".

Definition Task (d : doc) : bool :=
  str_field d "nik"
  && literal_field ["install_packages"; "activate_windows"; "activate_office"]
       d "type"
  && literal_field_default ["pending"; "in_progress"; "done"; "failed"]
       d "status"
  && opt_dict_field d "payload".

Definition Session (d : doc) : bool :=
  str_field d "token" && str_field d "nik".

(** The model a collection is documented to hold. *)
Definition schema_of (name : string) (d : doc) : Prop :=
  if decide (name = "employee") then Employee d = true
  else if decide (name = "session") then Session d = true
  else if decide (name = "task") then Task d = true
  else True.

(** ** Invariants of the store *)

(** Every document of every collection satisfies [P]. *)
Definition all_docs (P : string → doc → Prop) (s : database) : Prop :=
  ∀ name, Forall (P name) (docs_of s name).

(** [w] is unconfigured, or its store satisfies [I]. *)
Definition inv (I : database → Prop) (w : world) : Prop :=
  ∀ s, db w = Some s → I s.

(** [c] keeps the invariant [I], also when it raises, and what it returns
    satisfies [Q]. *)
Definition hoare {A} (I : database → Prop) (c : M A) (Q : A → Prop) : Prop :=
  ∀ w, inv I w → inv I (c w).2 ∧ ∀ a, (c w).1 = Returns a → Q a.

Definition has_id (name : string) (d : doc) : Prop := is_Some (d !! "_id").

(** ** The writes the service performs *)

(** One write to a configured store, as a request can cause it: a demo
    record seeded because its identifier was unknown, a session bound by
    login to the identifier of an employee on record, or a task of a type
    of the enum filed under the identifier that some session carries.
    Each appends one document to one collection. *)
Inductive write (s : database) : database → Prop :=
| write_employee (nik : string) (d : doc) :
    (nik, d) ∈ [("EMP001", demo_user); ("555501254121", requested_user)] →
    unknown_nik nik s →
    write s (store_insert "employee" d s)
| write_session (token nik : string) (u : doc) :
    u ∈ docs_of s "employee" →
    u !! "nik" = Some (VStr nik) →
    write s (store_insert "session" (session_doc token nik) s)
| write_task (d : doc) (nik : value) (payload : TaskCreateRequest) :
    d ∈ docs_of s "session" →
    d !! "nik" = Some nik →
    req_type payload ∈ task_types →
    write s (store_insert "task" (task_doc nik payload) s).

(** No two employee records carry the same identifier. *)
Definition unique_employees (s : database) : Prop :=
  NoDup (omap (λ d : doc, d !! "nik") (docs_of s "employee")).

(** [d] carries the identifier of an employee on record. *)
Definition owned_by_employee (s : database) (d : doc) : Prop :=
  ∃ u nik, u ∈ docs_of s "employee"
           ∧ u !! "nik" = Some nik ∧ d !! "nik" = Some nik.

(** Every session and every task belongs to an employee on record. *)
Definition referential (s : database) : Prop :=
  Forall (owned_by_employee s) (docs_of s "session")
  ∧ Forall (owned_by_employee s) (docs_of s "task").

(** ** The draws of a run *)

(** The bytes a request draws from the operating system: only login
    draws any. *)
Definition drawn (r : request) : option (list byte) :=
  match r with
  | PostLogin _ entropy => Some entropy
  | _ => None
  end.

Definition draws (rs : list request) : list (list byte) := omap drawn rs.

(** Every session of the store carries the print of one of the draws
    [es]. *)
Definition issued_from (es : list (list byte)) (s : database) : Prop :=
  Forall (λ d : doc, ∃ e, e ∈ es ∧ d !! "token" = Some (VStr (token_hex e)))
         (docs_of s "session").

(** ** Reading a token back *)

Definition unhex_digit (c : ascii) : option N :=
  let n := N_of_ascii c in
  if (48 <=? n)%N && (n <=? 57)%N then Some (n - 48)%N
  else if (97 <=? n)%N && (n <=? 102)%N then Some (n - 87)%N
  else None.

(** The inverse of [hexlify], [bytes.fromhex] on lower-case digits. *)
Fixpoint unhexlify (s : string) : option (list byte) :=
  match s with
  | EmptyString => Some []
  | String _ EmptyString => None
  | String h (String l r) =>
      match unhex_digit h, unhex_digit l, unhexlify r with
      | Some a, Some b, Some bs =>
          match Byte.of_N (a * 16 + b) with
          | Some x => Some (x :: bs)
          | None => None
          end
      | _, _, _ => None
      end
  end.



(** * Properties *)

(** ** Sanity checks of the string helpers *)

Example split_space1_bearer :
  split_space1 "Bearer abc def" = ["Bearer"; "abc def"].
Proof. reflexivity. Qed.

Example split_space1_no_space : split_space1 "Bearer" = ["Bearer"].
Proof. reflexivity. Qed.

Example token_hex_two : token_hex [x00; xff]%byte = "00ff".
Proof. reflexivity. Qed.

Example str_lower_mixed : str_lower "BeArEr x-Y" = "bearer x-y".
Proof. reflexivity. Qed.

(** ** Letter case and the bearer prefix *)

Lemma ascii_lower_not_space (c x : ascii) :
  ascii_lower c = x → x ≠ " "%char → Ascii.eqb c " " = false.
Proof.
  intros Hc Hx. destruct (Ascii.eqb_spec c " "%char) as [->|]; [|done].
  by destruct Hx.
Qed.

Lemma ascii_lower_is_space (c : ascii) :
  ascii_lower c = " "%char → c = " "%char.
Proof.
  destruct c as [[] [] [] [] [] [] [] []]; vm_compute; congruence.
Qed.

Lemma startswith_cons (a : ascii) (p s : string) :
  startswith (String a p) s = true →
  ∃ b s', s = String b s' ∧ a = b ∧ startswith p s' = true.
Proof.
  destruct s as [|b s']; simpl; [done|].
  intros [Hab Hp]%andb_prop. apply Ascii.eqb_eq in Hab. eauto.
Qed.

Lemma str_lower_cons_inv (s : string) (b : ascii) (r : string) :
  str_lower s = String b r →
  ∃ c s', s = String c s' ∧ ascii_lower c = b ∧ str_lower s' = r.
Proof.
  destruct s as [|c s']; simpl; [done|]. intros [= <- <-]. eauto.
Qed.

(** A value that passes the prefix test splits at its seventh character
    into the scheme and the token. *)
Lemma bearer_prefix_split (a : string) :
  startswith "bearer " (str_lower a) = true →
  ∃ scheme tok,
    a = scheme +:+ " " +:+ tok ∧ str_lower scheme = "bearer"
    ∧ split_space1 a = [scheme; tok].
Proof.
  intros H.
  repeat
    (apply startswith_cons in H as (? & ? & Hl & <- & H);
     apply str_lower_cons_inv in Hl as (? & ? & -> & ? & Hl);
     try rewrite <- Hl in H; try clear Hl).
  match goal with H : ascii_lower ?c = " "%char |- _ =>
    apply ascii_lower_is_space in H; subst c end.
  eexists (String _ (String _ (String _ (String _ (String _ (String _ EmptyString)))))), _.
  split; [reflexivity|]. split.
  - simpl. by repeat match goal with H : ascii_lower _ = _ |- _ =>
      rewrite H; clear H end.
  - cbn [split_space1].
    repeat match goal with H : ascii_lower _ = _ |- _ =>
      rewrite (ascii_lower_not_space _ _ H) by discriminate; clear H end.
    reflexivity.
Qed.

(** Extracting the token never fails and never touches the world. *)
Lemma bearer_token_returns (authorization : option string) (w : world) :
  ∃ token, bearer_token authorization w = (Returns token, w)
    ∧ (str_truthy token = true →
       ∃ a, authorization = Some a ∧ bearer_form a).
Proof.
  unfold bearer_token.
  destruct authorization as [a|]; cbn [str_truthy andb];
    [|exists None; split; [reflexivity|discriminate]].
  change (default EmptyString (Some a)) with a.
  destruct (negb (a =? EmptyString)%string); cbn [andb];
    [|exists None; split; [reflexivity|discriminate]].
  destruct (startswith "bearer " (str_lower a)) eqn:Hp;
    [|exists None; split; [reflexivity|discriminate]].
  destruct (bearer_prefix_split a Hp) as (scheme & tok & Heq & Hs & ->).
  simpl. exists (Some tok). split; [done|].
  intros Ht. exists a. split; [done|]. exists scheme, tok.
  repeat split; try done. intros ->. discriminate.
Qed.

Lemma bearer_token_malformed (authorization : option string) (w : world) :
  (∀ a, authorization = Some a → ¬ bearer_form a) →
  ∃ token, bearer_token authorization w = (Returns token, w)
    ∧ str_truthy token = false.
Proof.
  intros Hn. destruct (bearer_token_returns authorization w) as (t & Ht & Hf).
  exists t. split; [done|]. destruct (str_truthy t); [|done].
  destruct Hf as (a & Ha & Hb); [done|]. by destruct (Hn a).
Qed.

Lemma bearer_token_wellformed (scheme tok : string) (w : world) :
  str_lower scheme = "bearer" →
  bearer_token (Some (scheme +:+ " " +:+ tok)) w = (Returns (Some tok), w).
Proof.
  intros Hs.
  repeat (apply str_lower_cons_inv in Hs as (? & ? & -> & ? & Hs)).
  match goal with H : str_lower ?r = EmptyString |- _ => destruct r; [clear H|done] end.
  unfold bearer_token. cbv [String.append].
  cbn -[ascii_lower Ascii.eqb].
  repeat match goal with H : ascii_lower _ = _ |- _ =>
    rewrite H; rewrite (ascii_lower_not_space _ _ H) by discriminate; clear H end.
  reflexivity.
Qed.

(** ** The driver: first match, insertion *)

Lemma first_match_app (q : query) (ds es : list doc) :
  first_match q (ds ++ es) =
  match first_match q ds with
  | Some d => Some d
  | None => first_match q es
  end.
Proof.
  induction ds as [|d ds IH]; simpl; [done|]. by destruct (matches q d).
Qed.

Lemma first_match_Some (q : query) (ds : list doc) (d : doc) :
  first_match q ds = Some d → d ∈ ds ∧ d !! q.1 = Some q.2.
Proof.
  induction ds as [|e ds IH]; simpl; [done|].
  destruct (matches q e) eqn:He.
  - intros [= ->]. split; [left|]. unfold matches in He.
    by apply bool_decide_eq_true in He.
  - intros H. destruct (IH H). split; [by right|done].
Qed.

Lemma first_match_None (q : query) (ds : list doc) :
  first_match q ds = None ↔ Forall (λ d : doc, d !! q.1 ≠ Some q.2) ds.
Proof.
  induction ds as [|e ds IH]; simpl; [by split; [constructor|]|].
  unfold matches at 1. case_bool_decide as He.
  - split; [done|]. intros Hf. by apply Forall_cons in Hf as [? _].
  - rewrite IH. split; [by constructor|]. by intros [? ?]%Forall_cons.
Qed.

(** What [find_one] returns is truthy: it has at least the queried field. *)
Lemma first_match_found (q : query) (ds : list doc) (d : doc) :
  first_match q ds = Some d → found (Some d) = true.
Proof.
  intros [_ Hd]%first_match_Some. unfold found, dict_truthy.
  case_bool_decide as He; [|done]. by rewrite He, lookup_empty in Hd.
Qed.

Lemma docs_of_insert (name other : string) (d : doc) (s : database) :
  docs_of (store_insert name d s) other =
  if decide (name = other)
  then docs_of s name ++ [with_id (next_oid s) d]
  else docs_of s other.
Proof.
  unfold docs_of, store_insert; simpl. rewrite lookup_insert.
  by destruct (decide (name = other)) as [->|].
Qed.

Lemma with_id_fresh (o : N) (d : doc) :
  d !! "_id" = None → with_id o d = <["_id" := VOid o]> d.
Proof. unfold with_id. by intros ->. Qed.

Lemma with_id_lookup (o : N) (d : doc) (k : string) :
  k ≠ "_id" → with_id o d !! k = d !! k.
Proof.
  intros Hk. unfold with_id. destruct (d !! "_id"); [done|].
  by rewrite lookup_insert_ne.
Qed.

Lemma with_id_has_id (o : N) (d : doc) : is_Some (with_id o d !! "_id").
Proof.
  unfold with_id. destruct (d !! "_id") eqn:E; [by rewrite E|].
  rewrite lookup_insert_eq. eauto.
Qed.

(** ** Running the primitives on a configured store *)

Lemma get_collection_configured (name : string) (s : database) cs :
  get_collection name (World (Some s) cs) = (Returns name, World (Some s) cs).
Proof. reflexivity. Qed.

Lemma get_collection_unconfigured (name : string) cs :
  get_collection name (World None cs) =
  (Raises (HTTPException 500 "Database not configured"), World None cs).
Proof. reflexivity. Qed.

Lemma token_hex_nonempty (entropy : list byte) :
  entropy ≠ [] → token_hex entropy ≠ EmptyString.
Proof.
  destruct entropy as [|b r]; [done|]. intros _.
  by cbv [token_hex hexlify hex_of_byte String.append].
Qed.

(** The session authenticator, run on a non-empty token against a
    configured store. *)
Lemma auth_dependency_configured (tok : string) (s : database) cs :
  tok ≠ EmptyString →
  auth_dependency (Some tok) (World (Some s) cs) =
  let w' := World (Some s) (cs ++ [FindOne "session" ("token", VStr tok)]) in
  match first_match ("token", VStr tok) (docs_of s "session") with
  | None => (Raises (HTTPException 401 "Invalid token"), w')
  | Some d =>
      match d !! "nik" with
      | Some v => (Returns v, w')
      | None => (Raises (KeyError "nik"), w')
      end
  end.
Proof.
  intros Ht. unfold auth_dependency, str_truthy.
  destruct (String.eqb_spec tok EmptyString); [done|]. cbn [negb].
  unfold bind, find_one, get_collection.
  change (default EmptyString (Some tok)) with tok. cbn [db calls].
  destruct (first_match _ _) as [d|] eqn:Hd; [|done].
  rewrite (first_match_found _ _ _ Hd). cbn [negb].
  change (default ∅ (Some d)) with d. unfold dict_item.
  by destruct (d !! "nik").
Qed.

(** Without a token the authenticator fails at once, whatever the world. *)
Lemma auth_dependency_no_token (token : option string) (w : world) :
  str_truthy token = false →
  auth_dependency token w = (Raises (HTTPException 401 "Token required"), w).
Proof. intros H. unfold auth_dependency. by rewrite H. Qed.

Lemma auth_dependency_unconfigured (tok : string) cs :
  tok ≠ EmptyString →
  auth_dependency (Some tok) (World None cs) =
  (Raises (HTTPException 500 "Database not configured"), World None cs).
Proof.
  intros Ht. unfold auth_dependency, str_truthy.
  by destruct (String.eqb_spec tok EmptyString).
Qed.

(** The authenticator never writes. *)
Lemma auth_dependency_db (token : option string) (w : world) :
  db (auth_dependency token w).2 = db w.
Proof.
  destruct (str_truthy token) eqn:Ht;
    [|by rewrite auth_dependency_no_token].
  destruct token as [tok|]; [|done].
  assert (tok ≠ EmptyString) as Hne by (intros ->; discriminate).
  destruct w as [[s|] cs].
  - rewrite auth_dependency_configured by done. cbn zeta.
    destruct (first_match _ _) as [d|]; [|done]. by destruct (d !! "nik").
  - by rewrite auth_dependency_unconfigured.
Qed.

(** ** Login *)

Lemma first_match_employee (nik : string) (s : database) (u : doc) :
  employee_record nik s u ↔
  first_match ("nik", VStr nik) (docs_of s "employee") = Some u.
Proof.
  unfold employee_record. split.
  - intros (pre & post & -> & Hu & Hpre). rewrite first_match_app.
    apply (first_match_None ("nik", VStr nik)) in Hpre. rewrite Hpre. simpl.
    unfold matches. by rewrite bool_decide_eq_true_2.
  - generalize (docs_of s "employee"). intros ds; induction ds as [|e ds IH];
      simpl; [done|].
    unfold matches at 1. case_bool_decide as He.
    + intros [= ->]. by exists [], ds.
    + intros (pre & post & -> & Hu & Hpre)%IH.
      exists (e :: pre), post. repeat split; [done|]. by constructor.
Qed.

Lemma make_LoginResponse_run (token nik : string) (name division : value) w :
  display_ok name → display_ok division →
  make_LoginResponse token (VStr nik) name division w =
  (Returns {| resp_token := token; resp_nik := nik;
              resp_name := display name; resp_division := display division |}, w).
Proof. by intros [->|[? ->]] [->|[? ->]]. Qed.

Lemma make_LoginResponse_world (token : string) (nik name division : value) w :
  (make_LoginResponse token nik name division w).2 = w.
Proof.
  unfold make_LoginResponse, bind.
  destruct nik; try done. destruct name; try done; by destruct division.
Qed.

(** Login, run against a configured store. *)
Lemma login_configured (payload : LoginRequest) entropy (s : database) cs :
  login payload entropy (World (Some s) cs) =
  let q := ("nik", VStr (req_nik payload)) in
  let cs1 := cs ++ [FindOne "employee" q] in
  match first_match q (docs_of s "employee") with
  | None =>
      (Raises (HTTPException 401 "NIK tidak ditemukan"), World (Some s) cs1)
  | Some user =>
      if bool_decide (dict_get user "password" = VStr (req_password payload))
      then
        let sess := session_doc (token_hex entropy) (req_nik payload) in
        make_LoginResponse (token_hex entropy) (VStr (req_nik payload))
          (dict_get user "name") (dict_get user "division")
          (World (Some (store_insert "session" sess s))
                 (cs1 ++ [InsertOne "session" sess]))
      else (Raises (HTTPException 401 "Password salah"), World (Some s) cs1)
  end.
Proof.
  unfold login, bind, find_one, get_collection. cbn [db calls]. cbn zeta.
  destruct (first_match _ _) as [u|] eqn:Hu; [|done].
  rewrite (first_match_found _ _ _ Hu). cbn [negb].
  change (default ∅ (Some u)) with u.
  apply first_match_Some in Hu as [_ Hnik]. simpl in Hnik.
  case_bool_decide; [|done]. cbn [negb].
  unfold dict_item, insert_one. rewrite Hnik. unfold ret. cbn [db calls].
  by destruct (make_LoginResponse _ _ _ _ _) as [[?|?] ?].
Qed.

Lemma login_unconfigured (payload : LoginRequest) entropy cs :
  login payload entropy (World None cs) =
  (Raises (HTTPException 500 "Database not configured"), World None cs).
Proof. reflexivity. Qed.

Example seeded_employees :
  docs_of seeded_store "employee" =
  [ <["_id" := VOid 0]> demo_user; <["_id" := VOid 1]> requested_user ].
Proof. apply (bool_decide_unpack _). vm_compute. exact I. Qed.

Lemma seeded_world_db : db seeded_world = Some seeded_store.
Proof. reflexivity. Qed.

(** C2. Login on a configured store: when the employee collection has no
    record with the given identifier, login fails with 401 "NIK tidak
    ditemukan" (UnknownIdentifier); when the record of that identifier
    exists and its stored password is not the supplied one, login fails
    with 401 "Password salah" (BadPassword); the two failures differ. *)
Theorem login_failure_kinds (payload : LoginRequest) (entropy : list byte)
    (w : world) (s : database) :
  db w = Some s →
  (unknown_nik (req_nik payload) s →
     (login payload entropy w).1 =
       Raises (HTTPException 401 "NIK tidak ditemukan"))
  ∧ (∀ u, employee_record (req_nik payload) s u →
       dict_get u "password" ≠ VStr (req_password payload) →
       (login payload entropy w).1 =
         Raises (HTTPException 401 "Password salah"))
  ∧ HTTPException 401 "NIK tidak ditemukan"
      ≠ HTTPException 401 "Password salah".
Proof.
  intros Hdb. destruct w as [o cs]. simpl in Hdb. subst o.
  rewrite login_configured. cbn zeta. repeat split.
  - intros Hu. apply (first_match_None ("nik", VStr (req_nik payload))) in Hu.
    by rewrite Hu.
  - intros u Hu Hpw. apply first_match_employee in Hu. rewrite Hu.
    by rewrite bool_decide_eq_false_2.
  - discriminate.
Qed.

Lemma login_failure_kinds_witness :
  (login {| req_nik := "EMP999"; req_password := "12345" |} [] seeded_world).1
    = Raises (HTTPException 401 "NIK tidak ditemukan")
  ∧ (login {| req_nik := "EMP001"; req_password := "54321" |} [] seeded_world).1
    = Raises (HTTPException 401 "Password salah").
Proof.
  split.
  - apply (login_failure_kinds {| req_nik := "EMP999"; req_password := "12345" |}
             [] seeded_world seeded_store seeded_world_db).
    apply first_match_None with (q := ("nik", VStr "EMP999")). reflexivity.
  - apply (login_failure_kinds {| req_nik := "EMP001"; req_password := "54321" |}
             [] seeded_world seeded_store seeded_world_db)
      with (u := <["_id" := VOid 0]> demo_user).
    + apply first_match_employee. reflexivity.
    + vm_compute. discriminate.
Defined.

(** ** The active flag *)

Lemma docs_of_map_employees (f : doc → doc) (s : database) (name : string) :
  docs_of (map_employees f s) name =
  if decide (name = "employee") then f <$> docs_of s "employee"
  else docs_of s name.
Proof.
  unfold docs_of at 1, map_employees; simpl. rewrite lookup_insert.
  destruct (decide ("employee" = name)) as [<-|]; [done|].
  by rewrite decide_False by done.
Qed.

Lemma first_match_fmap (f : doc → doc) (q : query) (ds : list doc) :
  (∀ d, f d !! q.1 = d !! q.1) →
  first_match q (f <$> ds) = f <$> first_match q ds.
Proof.
  intros Hf. induction ds as [|d ds IH]; simpl; [done|].
  unfold matches. rewrite Hf. by case_bool_decide.
Qed.

Lemma set_active_lookup (b : bool) (d : doc) (k : string) :
  k ≠ "is_active" → set_active b d !! k = d !! k.
Proof. intros Hk. unfold set_active. by rewrite lookup_insert_ne. Qed.

Lemma make_LoginResponse_result (token : string) (nik name division : value)
    (w w' : world) :
  (make_LoginResponse token nik name division w).1 =
  (make_LoginResponse token nik name division w').1.
Proof.
  unfold make_LoginResponse, bind.
  destruct nik; try done. destruct name; try done; by destruct division.
Qed.

(** Rewriting every employee's active flag changes no login response. *)
Lemma login_is_active_blind (payload : LoginRequest) entropy
    (s : database) cs (b : bool) :
  (login payload entropy (World (Some (map_employees (set_active b) s)) cs)).1 =
  (login payload entropy (World (Some s) cs)).1.
Proof.
  rewrite !login_configured. cbn zeta.
  rewrite docs_of_map_employees, decide_True by done.
  rewrite first_match_fmap by (intros d; by apply set_active_lookup).
  destruct (first_match _ (docs_of s "employee")) as [u|]; [|done].
  cbn [fmap option_fmap option_map].
  unfold dict_get. rewrite !set_active_lookup by done.
  case_bool_decide; [|done]. apply make_LoginResponse_result.
Qed.

(** C10. Login never reads the active flag: for an employee record whose
    [is_active] is false (display fields typed as the schema says), login
    with its identifier and stored password succeeds, returns a token and
    the record's display fields, writes the session, and answers exactly
    as it does once the flag is set to true. *)
Theorem login_ignores_is_active (payload : LoginRequest) (entropy : list byte)
    (w : world) (s : database) (u : doc) :
  db w = Some s →
  employee_record (req_nik payload) s u →
  dict_get u "password" = VStr (req_password payload) →
  u !! "is_active" = Some (VBool false) →
  display_ok (dict_get u "name") →
  display_ok (dict_get u "division") →
  (login payload entropy w).1 =
    Returns {| resp_token := token_hex entropy;
               resp_nik := req_nik payload;
               resp_name := display (dict_get u "name");
               resp_division := display (dict_get u "division") |}
  ∧ db (login payload entropy w).2 =
      Some (store_insert "session"
              (session_doc (token_hex entropy) (req_nik payload)) s)
  ∧ (login payload entropy
       (World (Some (map_employees (set_active true) s)) (calls w))).1 =
    (login payload entropy w).1.
Proof.
  intros Hdb Hu Hpw _ Hn Hd. destruct w as [o cs]. simpl in Hdb. subst o.
  split; [|split]; [| |apply login_is_active_blind].
  all: rewrite login_configured; cbn zeta.
  all: apply first_match_employee in Hu; rewrite Hu.
  all: rewrite bool_decide_eq_true_2 by done.
  - by rewrite make_LoginResponse_run.
  - by rewrite make_LoginResponse_world.
Qed.

Lemma login_ignores_is_active_witness :
  (login {| req_nik := "EMP001"; req_password := "12345" |} [x2a]%byte
     (World (Some (map_employees (set_active false) seeded_store)) [])).1 =
  Returns {| resp_token := "2a"; resp_nik := "EMP001";
             resp_name := Some "Demo User"; resp_division := Some "IT" |}.
Proof.
  apply (login_ignores_is_active
           {| req_nik := "EMP001"; req_password := "12345" |} [x2a]%byte
           (World (Some (map_employees (set_active false) seeded_store)) [])
           (map_employees (set_active false) seeded_store)
           (set_active false (<["_id" := VOid 0]> demo_user))).
  - reflexivity.
  - apply first_match_employee. reflexivity.
  - reflexivity.
  - reflexivity.
  - right. eexists. reflexivity.
  - right. eexists. reflexivity.
Defined.

(** ** Protected routes *)

Section Routes.

Variable py_str : value → string.

Lemma create_task_after_auth payload authorization (w : world) token :
  bearer_token authorization w = (Returns token, w) →
  create_task py_str payload authorization w =
  match auth_dependency token w with
  | (Raises e, w1) => (Raises e, w1)
  | (Returns nik, w1) =>
      if bool_decide (req_type payload ∈ task_types) then
        (let* task_id := create_document py_str "task" (task_doc nik payload) in
         ret {| resp_id := task_id; resp_status := "pending" |}) w1
      else (Raises (HTTPException 400 "Invalid task type"), w1)
  end.
Proof.
  intros Hb. unfold create_task at 1, bind at 1 2. rewrite Hb.
  destruct (auth_dependency token w) as [[nik|e] w1]; [|done].
  by case_bool_decide.
Qed.

Lemma list_my_tasks_after_auth authorization (w : world) token :
  bearer_token authorization w = (Returns token, w) →
  list_my_tasks py_str authorization w =
  match auth_dependency token w with
  | (Raises e, w1) => (Raises e, w1)
  | (Returns nik, w1) =>
      (let* tasks := get_documents "task" ("nik", nik) 50 in
       ret (expose_id py_str <$> tasks)) w1
  end.
Proof.
  intros Hb. unfold list_my_tasks at 1, bind at 1 2. rewrite Hb.
  by destruct (auth_dependency token w) as [[nik|e] w1].
Qed.

(** The errors the authenticator can end in. *)
Lemma auth_dependency_errors (token : option string) (w w1 : world) e :
  auth_dependency token w = (Raises e, w1) →
  e = HTTPException 401 "Token required"
  ∨ e = HTTPException 401 "Invalid token"
  ∨ e = HTTPException 500 "Database not configured"
  ∨ e = KeyError "nik".
Proof.
  destruct (str_truthy token) eqn:Ht.
  - destruct token as [tok|]; [|done].
    assert (tok ≠ EmptyString) as Hne by (intros ->; discriminate).
    destruct w as [[s|] cs].
    + rewrite auth_dependency_configured by done. cbn zeta.
      destruct (first_match _ _) as [d|]; [|intros [= <- _]; auto].
      destruct (d !! "nik"); [done|]. intros [= <- _]; auto.
    + rewrite auth_dependency_unconfigured by done. intros [= <- _]; auto.
  - rewrite auth_dependency_no_token by done. intros [= <- _]; auto.
Qed.

(** A well-formed header whose token no session binds. *)
Lemma auth_dependency_unbound (tok : string) (s : database) cs :
  tok ≠ EmptyString → unbound_token tok s →
  auth_dependency (Some tok) (World (Some s) cs) =
  (Raises (HTTPException 401 "Invalid token"),
   World (Some s) (cs ++ [FindOne "session" ("token", VStr tok)])).
Proof.
  intros Hne Hu. rewrite auth_dependency_configured by done. cbn zeta.
  apply (first_match_None ("token", VStr tok)) in Hu. by rewrite Hu.
Qed.

Lemma create_task_missing_token payload authorization (w : world) :
  (∀ a, authorization = Some a → ¬ bearer_form a) →
  create_task py_str payload authorization w =
  (Raises (HTTPException 401 "Token required"), w).
Proof.
  intros Hn. destruct (bearer_token_malformed authorization w Hn)
    as (token & Hb & Hf).
  rewrite (create_task_after_auth _ _ _ _ Hb).
  by rewrite auth_dependency_no_token.
Qed.


Lemma create_task_invalid_token payload (scheme tok : string) s cs :
  str_lower scheme = "bearer" → tok ≠ EmptyString → unbound_token tok s →
  create_task py_str payload (Some (scheme +:+ " " +:+ tok))
              (World (Some s) cs) =
  (Raises (HTTPException 401 "Invalid token"),
   World (Some s) (cs ++ [FindOne "session" ("token", VStr tok)])).
Proof.
  intros Hs Hne Hu.
  rewrite (create_task_after_auth _ _ _ _ (bearer_token_wellformed _ _ _ Hs)).
  by rewrite auth_dependency_unbound.
Qed.


(** C3. Task creation authenticates before it validates the type.
    Whatever the payload (so also for a type outside the enum): an
    absent or malformed header ends in 401 "Token required" and leaves
    the world as it was; a well-formed header whose token no session
    binds ends in 401 "Invalid token" with the store unchanged; and a
    400 "Invalid task type" is only ever the outcome of a request that
    passed authentication. *)
Theorem create_task_auth_first (payload : TaskCreateRequest)
    (authorization : option string) (w : world) :
  ((∀ a, authorization = Some a → ¬ bearer_form a) →
     create_task py_str payload authorization w =
     (Raises (HTTPException 401 "Token required"), w))
  ∧ (∀ scheme tok s,
       authorization = Some (scheme +:+ " " +:+ tok) →
       str_lower scheme = "bearer" → tok ≠ EmptyString →
       db w = Some s → unbound_token tok s →
       (create_task py_str payload authorization w).1 =
         Raises (HTTPException 401 "Invalid token")
       ∧ db (create_task py_str payload authorization w).2 = db w)
  ∧ ((create_task py_str payload authorization w).1 =
       Raises (HTTPException 400 "Invalid task type") →
     ∃ nik w1, authenticated authorization w nik w1).
Proof.
  split; [apply create_task_missing_token|]. split.
  - intros scheme tok s -> Hs Hne Hdb Hu. destruct w as [o cs].
    simpl in Hdb. subst o. by rewrite create_task_invalid_token.
  - destruct (bearer_token_returns authorization w) as (token & Hb & _).
    rewrite (create_task_after_auth _ _ _ _ Hb).
    destruct (auth_dependency token w) as [[nik|e] w1] eqn:Ha.
    + intros _. exists nik, w1, token. by split.
    + simpl. intros [= ->].
      apply auth_dependency_errors in Ha.
      destruct Ha as [?|[?|[?|?]]]; discriminate.
Qed.

(** An authenticated request found its session in a configured store,
    which the authenticator left as it was. *)
Lemma authenticated_store authorization (w w1 : world) (nik : value) :
  authenticated authorization w nik w1 →
  ∃ s, db w = Some s ∧ db w1 = Some s.
Proof.
  intros (token & _ & Ha).
  pose proof (auth_dependency_db token w) as Hdb. rewrite Ha in Hdb.
  simpl in Hdb. destruct w as [[s|] cs]; [by exists s|].
  destruct (str_truthy token) eqn:Ht.
  - destruct token as [tok|]; [|done].
    rewrite auth_dependency_unconfigured in Ha; [done|].
    intros ->; discriminate.
  - by rewrite auth_dependency_no_token in Ha.
Qed.

Lemma create_task_authenticated payload authorization (w w1 : world) nik :
  authenticated authorization w nik w1 →
  create_task py_str payload authorization w =
  if bool_decide (req_type payload ∈ task_types) then
    (let* task_id := create_document py_str "task" (task_doc nik payload) in
     ret {| resp_id := task_id; resp_status := "pending" |}) w1
  else (Raises (HTTPException 400 "Invalid task type"), w1).
Proof.
  intros (token & Hb & Ha).
  by rewrite (create_task_after_auth _ _ _ _ Hb), Ha.
Qed.

(** C5. An authenticated task creation whose type is outside the
    three-value enum fails with 400 "Invalid task type", a client error,
    and the store (so the task collection) is left unchanged. *)
Theorem create_task_invalid_type (payload : TaskCreateRequest)
    (authorization : option string) (w w1 : world) (nik : value) :
  authenticated authorization w nik w1 →
  req_type payload ∉ task_types →
  create_task py_str payload authorization w =
    (Raises (HTTPException 400 "Invalid task type"), w1)
  ∧ status_of (HTTPException 400 "Invalid task type") = 400
  ∧ db w1 = db w.
Proof.
  intros Ha Ht. rewrite (create_task_authenticated _ _ _ _ _ Ha).
  rewrite bool_decide_eq_false_2 by done. repeat split.
  destruct (authenticated_store _ _ _ _ Ha) as (s & -> & ->). done.
Qed.

Lemma task_doc_no_id (nik : value) (payload : TaskCreateRequest) :
  task_doc nik payload !! "_id" = None.
Proof. unfold task_doc. by simplify_map_eq. Qed.

Lemma create_document_configured (name : string) (d : doc) s cs :
  d !! "_id" = None →
  create_document py_str name d (World (Some s) cs) =
  (Returns (py_str (VOid (next_oid s))),
   World (Some (store_insert name d s)) (cs ++ [InsertOne name d])).
Proof.
  intros Hd. unfold create_document, bind, insert_one, ret. cbn [db calls].
  by rewrite with_id_fresh, lookup_insert_eq.
Qed.

(** C4. An authenticated task creation with a type of the enum persists
    exactly one record, appended to the task collection and to nothing
    else: the authenticated identifier, the given type, status "pending",
    the given payload (the empty mapping when absent) and the identifier
    the store generated; it returns that identifier with the literal
    status "pending". *)
Theorem create_task_persists (payload : TaskCreateRequest)
    (authorization : option string) (w w1 : world) (nik : value)
    (s : database) :
  authenticated authorization w nik w1 →
  db w = Some s →
  req_type payload ∈ task_types →
  ∃ w2 s2 stored,
    create_task py_str payload authorization w =
      (Returns {| resp_id := py_str (VOid (next_oid s));
                  resp_status := "pending" |}, w2)
    ∧ db w2 = Some s2
    ∧ docs_of s2 "task" = docs_of s "task" ++ [stored]
    ∧ (∀ name, name ≠ "task" → docs_of s2 name = docs_of s name)
    ∧ stored !! "nik" = Some nik
    ∧ stored !! "type" = Some (VStr (req_type payload))
    ∧ stored !! "status" = Some (VStr "pending")
    ∧ stored !! "payload" = Some (VDict (default [] (req_payload payload)))
    ∧ stored !! "_id" = Some (VOid (next_oid s)).
Proof.
  intros Ha Hdb Ht. rewrite (create_task_authenticated _ _ _ _ _ Ha).
  rewrite bool_decide_eq_true_2 by done.
  destruct (authenticated_store _ _ _ _ Ha) as (s' & Hs & Hs1).
  rewrite Hdb in Hs. injection Hs as <-. destruct w1 as [o cs1].
  simpl in Hs1. subst o. unfold bind at 1.
  rewrite create_document_configured by apply task_doc_no_id.
  eexists _, _, (<["_id" := VOid (next_oid s)]> (task_doc nik payload)).
  split; [reflexivity|]. split; [reflexivity|].
  split; [by rewrite docs_of_insert, decide_True, with_id_fresh
             by (done || apply task_doc_no_id)|].
  split; [by intros name Hn; rewrite docs_of_insert, decide_False|].
  unfold task_doc. repeat split; simplify_map_eq; try done.
  by destruct (req_payload payload) as [[|kv kvs]|].
Qed.

(** ** Listing *)

Lemma get_documents_configured (name : string) (q : query) (limit : nat) s cs :
  get_documents name q limit (World (Some s) cs) =
  (Returns (take limit (List.filter (matches q) (docs_of s name))),
   World (Some s) (cs ++ [Find name q limit])).
Proof. reflexivity. Qed.

Lemma expose_id_other (t : doc) (k : string) :
  k ≠ "id" → k ≠ "_id" → expose_id py_str t !! k = t !! k.
Proof.
  intros H1 H2. unfold expose_id. destruct (t !! "_id"); [|done].
  by rewrite lookup_insert_ne, lookup_delete_ne.
Qed.

Lemma expose_id_internal (t : doc) : expose_id py_str t !! "_id" = None.
Proof.
  unfold expose_id. destruct (t !! "_id") eqn:E; [|done].
  by rewrite lookup_insert_ne, lookup_delete_eq.
Qed.

Lemma expose_id_uniform (t : doc) (i : value) :
  t !! "_id" = Some i → expose_id py_str t !! "id" = Some (VStr (py_str i)).
Proof. intros E. unfold expose_id. rewrite E. apply lookup_insert_eq. Qed.

(** C6. An authenticated listing returns the first fifty tasks, in store
    order, whose owner is the authenticated identifier, each with its
    [_id] renamed to [id]: every returned record is owned by that
    identifier, there are at most 50 of them, none carries [_id] any
    more, and each is a stored task whose [_id], printed as a string,
    sits under [id]. *)
Theorem list_my_tasks_owned (authorization : option string) (w w1 : world)
    (nik : value) (s : database) :
  authenticated authorization w nik w1 →
  db w = Some s →
  ∃ rs w2,
    list_my_tasks py_str authorization w = (Returns rs, w2)
    ∧ rs = expose_id py_str <$>
             take 50 (List.filter (matches ("nik", nik)) (docs_of s "task"))
    ∧ db w2 = db w
    ∧ (List.length rs ≤ 50)%nat
    ∧ Forall (λ r : doc, r !! "nik" = Some nik) rs
    ∧ Forall (λ r : doc,
        r !! "_id" = None
        ∧ ∃ t : doc, t ∈ docs_of s "task" ∧ t !! "nik" = Some nik
            ∧ r = expose_id py_str t
            ∧ ∀ i, t !! "_id" = Some i → r !! "id" = Some (VStr (py_str i))) rs.
Proof.
  intros Ha Hdb. pose proof Ha as (token & Hb & Hauth).
  rewrite (list_my_tasks_after_auth _ _ _ Hb), Hauth.
  destruct (authenticated_store _ _ _ _ Ha) as (s' & Hs & Hs1).
  rewrite Hdb in Hs. injection Hs as <-. destruct w1 as [o cs1].
  simpl in Hs1. subst o. unfold bind. rewrite get_documents_configured.
  eexists _, _. split; [reflexivity|]. split; [reflexivity|].
  split; [by rewrite Hdb|].
  assert (Forall (λ t : doc, t ∈ docs_of s "task" ∧ t !! "nik" = Some nik)
            (take 50 (List.filter (matches ("nik", nik)) (docs_of s "task"))))
    as Hsel.
  { apply Forall_take, Forall_forall. intros t Ht.
    apply list_elem_of_In, filter_In in Ht as [Ht Hm].
    split; [by apply list_elem_of_In|].
    unfold matches in Hm. by apply bool_decide_eq_true in Hm. }
  split; [rewrite length_fmap, length_take; lia|].
  split; apply Forall_fmap; eapply Forall_impl; try exact Hsel.
  - intros t [_ Ht]. simpl. by rewrite expose_id_other.
  - intros t [Hin Ht]. simpl. split; [apply expose_id_internal|].
    exists t. repeat split; try done. apply expose_id_uniform.
Qed.

(** ** Requests without a usable token *)

Lemma bearer_form_token (a : string) (w : world) :
  bearer_form a →
  ∃ tok, tok ≠ EmptyString ∧ bearer_token (Some a) w = (Returns (Some tok), w).
Proof.
  intros (scheme & tok & -> & Hs & Hne). exists tok.
  split; [done|]. by apply bearer_token_wellformed.
Qed.


End Routes.

(** ** The Authorization header *)

(** C7.  The code does not keep this claim.  The comments of [main.py]
    speak of a header [Authorization: Bearer <token>], but the protected
    routes receive [authorization] from the query string and never look
    at the headers.  A request without any Authorization header is
    therefore not refused as MissingToken when its query string carries a
    valid bearer token: the task is created and the listing answered.
    Conversely a request whose Authorization header carries the valid
    token, and whose query string does not, is refused with 401 "Token
    required".  Whatever the headers, the outcome is the same. *)
Theorem authorization_header_not_read :
  http_headers query_only_request !! "authorization" = None
  ∧ (post_api_tasks sample_str query_only_request install_request
       logged_in_world).1
    = Returns {| resp_id := "3"; resp_status := "pending" |}
  ∧ (get_api_tasks sample_str query_only_request logged_in_world).1
    = Returns []
  ∧ post_api_tasks sample_str header_only_request install_request
      logged_in_world
    = (Raises (HTTPException 401 "Token required"), logged_in_world)
  ∧ get_api_tasks sample_str header_only_request logged_in_world
    = (Raises (HTTPException 401 "Token required"), logged_in_world)
  ∧ (∀ py_str headers headers' query payload w,
       post_api_tasks py_str
         {| http_headers := headers; http_query := query |} payload w
       = post_api_tasks py_str
           {| http_headers := headers'; http_query := query |} payload w
       ∧ get_api_tasks py_str
           {| http_headers := headers; http_query := query |} w
         = get_api_tasks py_str
             {| http_headers := headers'; http_query := query |} w).
Proof.
  split; [reflexivity|]. split; [vm_compute; reflexivity|].
  split; [vm_compute; reflexivity|].
  split; [reflexivity|]. split; [reflexivity|]. by intros.
Qed.

(** ** Startup seeding *)

Lemma seed_one_configured (nik : string) (d : doc) s cs :
  d !! "_id" = None →
  seed_one "employee" nik d (World (Some s) cs) =
  (Returns tt,
   World (Some (seed_if_absent nik d s))
         (cs ++ [FindOne "employee" ("nik", VStr nik)]
             ++ if decide (unknown_nik nik s)
                then [InsertOne "employee" d] else [])).
Proof.
  intros Hd. unfold seed_one, seed_if_absent, bind, find_one. cbn [db calls].
  destruct (decide (unknown_nik nik s)) as [Hn|Hn].
  - apply (first_match_None ("nik", VStr nik)) in Hn. rewrite Hn.
    cbn [found negb]. unfold insert_one, ret. cbn [db calls].
    by rewrite <- app_assoc.
  - destruct (first_match _ _) as [u|] eqn:Hu.
    + by rewrite (first_match_found _ _ _ Hu).
    + by apply (first_match_None ("nik", VStr nik)) in Hu.
Qed.

Lemma demo_user_no_id : demo_user !! "_id" = None.
Proof. reflexivity. Qed.

Lemma requested_user_no_id : requested_user !! "_id" = None.
Proof. reflexivity. Qed.

(** The store that startup seeding leaves. *)
Lemma seed_employee_configured (s : database) cs :
  db (seed_employee (World (Some s) cs)).2 =
  Some (seed_if_absent "555501254121" requested_user
          (seed_if_absent "EMP001" demo_user s)).
Proof.
  unfold seed_employee. cbn [db]. unfold bind at 1. cbn [get_collection db].
  unfold bind. rewrite seed_one_configured by apply demo_user_no_id.
  by rewrite seed_one_configured by apply requested_user_no_id.
Qed.

Lemma seed_employee_returns (w : world) : (seed_employee w).1 = Returns tt.
Proof.
  destruct w as [[s|] cs]; [|done].
  unfold seed_employee. cbn [db]. unfold bind at 1. cbn [get_collection db].
  unfold bind. rewrite seed_one_configured by apply demo_user_no_id.
  by rewrite seed_one_configured by apply requested_user_no_id.
Qed.

Lemma unknown_nik_insert (nik : string) (d : doc) (s : database) :
  unknown_nik nik (store_insert "employee" d s) ↔
  unknown_nik nik s ∧ with_id (next_oid s) d !! "nik" ≠ Some (VStr nik).
Proof.
  unfold unknown_nik. rewrite docs_of_insert, decide_True by done.
  rewrite Forall_app, Forall_singleton. done.
Qed.

Lemma seed_if_absent_known (nik : string) (d : doc) (s : database) :
  d !! "nik" = Some (VStr nik) → ¬ unknown_nik nik (seed_if_absent nik d s).
Proof.
  intros Hd. unfold seed_if_absent. case_decide as Hu; [|done].
  rewrite unknown_nik_insert, with_id_lookup by done. tauto.
Qed.

Lemma seed_if_absent_keeps (nik other : string) (d : doc) (s : database) :
  ¬ unknown_nik other s → ¬ unknown_nik other (seed_if_absent nik d s).
Proof.
  intros Hk. unfold seed_if_absent. case_decide; [|done].
  rewrite unknown_nik_insert. tauto.
Qed.

Lemma seed_if_absent_id (nik : string) (d : doc) (s : database) :
  ¬ unknown_nik nik s → seed_if_absent nik d s = s.
Proof. intros Hk. unfold seed_if_absent. by rewrite decide_False. Qed.

(** C9. Startup seeding is idempotent.  On a configured store it does, for
    each of the two demo records in turn, exactly "insert it only if no
    employee record with that identifier exists"; hence on a store that
    already holds both identifiers it changes nothing, and seeding a
    second time changes nothing either. *)
Theorem seed_employee_idempotent (w : world) (s : database) :
  db w = Some s →
  db (seed_employee w).2 =
    Some (seed_if_absent "555501254121" requested_user
            (seed_if_absent "EMP001" demo_user s))
  ∧ (¬ unknown_nik "EMP001" s → ¬ unknown_nik "555501254121" s →
       db (seed_employee w).2 = Some s)
  ∧ db (seed_employee (seed_employee w).2).2 = db (seed_employee w).2.
Proof.
  intros Hdb. destruct w as [o cs]. simpl in Hdb. subst o.
  split; [apply seed_employee_configured|]. split.
  - intros H1 H2. rewrite seed_employee_configured.
    by rewrite (seed_if_absent_id "EMP001"), seed_if_absent_id.
  - destruct (seed_employee (World (Some s) cs)) as [r [o cs']] eqn:E.
    pose proof (seed_employee_configured s cs) as Hs.
    rewrite E in Hs. simpl in Hs. subst o. simpl.
    rewrite seed_employee_configured.
    rewrite (seed_if_absent_id "EMP001"), seed_if_absent_id; [done| |].
    + by apply seed_if_absent_known.
    + by apply seed_if_absent_keeps, seed_if_absent_known.
Qed.

Lemma seed_employee_idempotent_witness :
  db (seed_employee seeded_world).2 = Some seeded_store.
Proof.
  destruct (seed_employee_idempotent seeded_world seeded_store seeded_world_db)
    as (_ & Hsame & _).
  apply Hsame.
  - apply (bool_decide_eq_false_1 (unknown_nik "EMP001" seeded_store)).
    vm_compute. reflexivity.
  - apply (bool_decide_eq_false_1 (unknown_nik "555501254121" seeded_store)).
    vm_compute. reflexivity.
Defined.

(** ** An unconfigured store *)

Section Unconfigured.

Variable py_str : value → string.

Lemma create_task_unconfigured payload (a : string) cs :
  bearer_form a →
  create_task py_str payload (Some a) (World None cs) =
  (Raises (HTTPException 500 "Database not configured"), World None cs).
Proof.
  intros Hb. destruct (bearer_form_token a (World None cs) Hb) as (tok & Hne & Ht).
  rewrite (create_task_after_auth _ _ _ _ _ Ht).
  by rewrite auth_dependency_unconfigured.
Qed.

Lemma list_my_tasks_unconfigured (a : string) cs :
  bearer_form a →
  list_my_tasks py_str (Some a) (World None cs) =
  (Raises (HTTPException 500 "Database not configured"), World None cs).
Proof.
  intros Hb. destruct (bearer_form_token a (World None cs) Hb) as (tok & Hne & Ht).
  rewrite (list_my_tasks_after_auth _ _ _ _ Ht).
  by rewrite auth_dependency_unconfigured.
Qed.

(** C8, as amended.  With no database handle, [get_collection] raises 500
    "Database not configured", and so do login and, when given a
    non-empty bearer token, the session authenticator, task creation and
    task listing; that status is neither 401 nor 404.  Startup seeding
    instead returns without an error, and a protected route called
    without a usable token answers 401 before the store is consulted. *)
Theorem unconfigured_store_server_error (w : world) :
  db w = None →
  let e500 := HTTPException 500 "Database not configured" in
  (∀ name, get_collection name w = (Raises e500, w))
  ∧ (∀ payload entropy, login payload entropy w = (Raises e500, w))
  ∧ (∀ tok, tok ≠ EmptyString → auth_dependency (Some tok) w = (Raises e500, w))
  ∧ (∀ payload a, bearer_form a →
       create_task py_str payload (Some a) w = (Raises e500, w))
  ∧ (∀ a, bearer_form a → list_my_tasks py_str (Some a) w = (Raises e500, w))
  ∧ status_of e500 = 500 ∧ status_of e500 ≠ 401 ∧ status_of e500 ≠ 404
  ∧ seed_employee w = (Returns tt, w)
  ∧ (∀ payload authorization,
       (∀ a, authorization = Some a → ¬ bearer_form a) →
       create_task py_str payload authorization w =
         (Raises (HTTPException 401 "Token required"), w)).
Proof.
  intros Hdb. destruct w as [o cs]. simpl in Hdb. subst o. cbn zeta.
  repeat split; try done.
  - intros tok Hne. by apply auth_dependency_unconfigured.
  - intros payload a Hb. by apply create_task_unconfigured.
  - intros a Hb. by apply list_my_tasks_unconfigured.
  - intros payload authorization Hn. by apply create_task_missing_token.
Qed.

End Unconfigured.

Lemma unconfigured_store_server_error_witness :
  login {| req_nik := "EMP001"; req_password := "12345" |} [] (World None []) =
  (Raises (HTTPException 500 "Database not configured"), World None []).
Proof.
  apply (unconfigured_store_server_error sample_str (World None []) eq_refl).
Defined.

(** C8 as worded fails: not every operation that depends on the store
    ends in a server error when the store is unconfigured.  The startup
    hook returns normally. *)
Lemma unconfigured_store_not_always_error :
  ¬ (∀ (r : request) (w : world),
       db w = None →
       ∃ e, (serve sample_str r w).1 = Some e ∧ status_of e = 500).
Proof.
  intros H. destruct (H Startup (World None []) eq_refl) as (e & He & _).
  discriminate He.
Qed.

(** ** Nothing is ever removed from the store *)

Lemma grows_refl (w : world) : grows w w.
Proof.
  intros s Hs. exists s. split; [done|]. intros name. exists [].
  by rewrite app_nil_r.
Qed.

Lemma grows_trans (w1 w2 w3 : world) : grows w1 w2 → grows w2 w3 → grows w1 w3.
Proof.
  intros H12 H23 s1 Hs1. destruct (H12 s1 Hs1) as (s2 & Hs2 & E12).
  destruct (H23 s2 Hs2) as (s3 & Hs3 & E23). exists s3. split; [done|].
  intros name. destruct (E12 name) as [e1 E1]. destruct (E23 name) as [e2 E2].
  exists (e1 ++ e2). by rewrite E2, E1, app_assoc.
Qed.

Lemma grows_same_db (w w' : world) : db w' = db w → grows w w'.
Proof.
  intros E s Hs. exists s. split; [congruence|]. intros name. exists [].
  by rewrite app_nil_r.
Qed.

Lemma append_only_ret {A} (a : A) : append_only (ret a).
Proof. intros w. apply grows_refl. Qed.

Lemma append_only_raise {A} (e : error) : append_only (@raise A e).
Proof. intros w. apply grows_refl. Qed.

Lemma append_only_bind {A B} (c : M A) (k : A → M B) :
  append_only c → (∀ a, append_only (k a)) → append_only (bind c k).
Proof.
  intros Hc Hk w. unfold bind. specialize (Hc w).
  destruct (c w) as [[a|e] w']; [|done].
  eapply grows_trans; [exact Hc|apply Hk].
Qed.

Lemma append_only_get_collection (name : string) :
  append_only (get_collection name).
Proof.
  intros w. unfold get_collection. destruct (db w); apply grows_refl.
Qed.

Lemma append_only_find_one (name : string) (q : query) :
  append_only (find_one name q).
Proof.
  intros w. unfold find_one. destruct (db w) eqn:E; [|apply grows_refl].
  by apply grows_same_db.
Qed.

Lemma append_only_insert_one (name : string) (d : doc) :
  append_only (insert_one name d).
Proof.
  intros w. unfold insert_one. destruct (db w) as [s|] eqn:E;
    [|apply grows_refl].
  intros s0 Hs0. rewrite E in Hs0. injection Hs0 as <-.
  eexists. split; [reflexivity|]. intros other. rewrite docs_of_insert.
  case_decide as Hn; [subst other; eauto|]. exists []. by rewrite app_nil_r.
Qed.

Lemma append_only_at {A} (c : M A) (w : world) :
  append_only c → grows w (c w).2.
Proof. intros H. apply H. Qed.

Create HintDb handlers.

#[local] Hint Resolve append_only_get_collection append_only_find_one
  append_only_insert_one : handlers.

Ltac append_only_steps :=
  repeat first
    [ solve [auto with handlers]
    | apply append_only_ret
    | apply append_only_raise
    | apply append_only_bind; [|intros ?]
    | match goal with
      | |- append_only (if ?b then _ else _) => destruct b
      | |- append_only (match ?x with _ => _ end) => destruct x
      end ].

Lemma append_only_auth_dependency (token : option string) :
  append_only (auth_dependency token).
Proof. unfold auth_dependency, dict_item. append_only_steps. Qed.

Lemma append_only_bearer_token (authorization : option string) :
  append_only (bearer_token authorization).
Proof. unfold bearer_token. append_only_steps. Qed.

Lemma append_only_make_LoginResponse token nik name division :
  append_only (make_LoginResponse token nik name division).
Proof.
  unfold make_LoginResponse, validate_str, validate_opt_str.
  append_only_steps.
Qed.

#[local] Hint Resolve append_only_auth_dependency append_only_bearer_token
  append_only_make_LoginResponse : handlers.

Lemma append_only_login payload entropy : append_only (login payload entropy).
Proof. unfold login, dict_item. append_only_steps. Qed.

Lemma append_only_seed_employee : append_only seed_employee.
Proof.
  intros w. unfold seed_employee. destruct (db w) eqn:E; [|apply grows_refl].
  apply append_only_at.
  unfold seed_one. append_only_steps.
Qed.

Section Service.

Variable py_str : value → string.

Lemma append_only_create_document name d :
  append_only (create_document py_str name d).
Proof.
  intros w. unfold create_document. destruct (db w) eqn:E; [|apply grows_refl].
  apply append_only_at.
  append_only_steps.
Qed.

Lemma append_only_get_documents name q limit :
  append_only (get_documents name q limit).
Proof.
  intros w. unfold get_documents. destruct (db w) eqn:E; [|apply grows_refl].
  by apply grows_same_db.
Qed.

#[local] Hint Resolve append_only_create_document append_only_get_documents
  : handlers.

Lemma append_only_create_task payload authorization :
  append_only (create_task py_str payload authorization).
Proof. unfold create_task. append_only_steps. Qed.

Lemma append_only_list_my_tasks authorization :
  append_only (list_my_tasks py_str authorization).
Proof. unfold list_my_tasks. append_only_steps. Qed.

Lemma serve_grows (r : request) (w : world) : grows w (serve py_str r w).2.
Proof.
  destruct r; simpl.
  - apply append_only_seed_employee.
  - apply append_only_auth_dependency.
  - apply append_only_login.
  - apply append_only_create_task.
  - apply append_only_list_my_tasks.
Qed.

Lemma serve_all_grows (rs : list request) (w : world) :
  grows w (serve_all py_str rs w).
Proof.
  revert w. induction rs as [|r rs IH]; intros w; simpl; [apply grows_refl|].
  eapply grows_trans; [apply serve_grows|apply IH].
Qed.

(** ** Sessions *)

Lemma make_LoginResponse_inv token nik name division (w w1 : world) resp :
  make_LoginResponse token (VStr nik) name division w = (Returns resp, w1) →
  resp_token resp = token ∧ resp_nik resp = nik ∧ w1 = w.
Proof.
  unfold make_LoginResponse, bind, validate_str, validate_opt_str, ret, raise.
  destruct name; try done; destruct division; try done; by intros [= <- <-].
Qed.

(** What a successful login leaves behind. *)
Lemma login_success_inv payload entropy (s : database) cs resp (w1 : world) :
  login payload entropy (World (Some s) cs) = (Returns resp, w1) →
  resp_token resp = token_hex entropy
  ∧ resp_nik resp = req_nik payload
  ∧ db w1 = Some (store_insert "session"
                    (session_doc (token_hex entropy) (req_nik payload)) s).
Proof.
  rewrite login_configured. cbn zeta.
  destruct (first_match _ _) as [u|]; [|done].
  case_bool_decide; [|done].
  intros (? & ? & ->)%make_LoginResponse_inv. done.
Qed.

Lemma session_doc_fields (token nik : string) (o : N) :
  with_id o (session_doc token nik) !! "token" = Some (VStr token)
  ∧ with_id o (session_doc token nik) !! "nik" = Some (VStr nik).
Proof. rewrite !with_id_lookup by done. unfold session_doc. by simplify_map_eq. Qed.


End Service.

(** ** The theorems at work on the demo run *)

Example demo_token : token_hex demo_entropy = "2a2a2a2a2a2a2a2a2a2a2a2a2a2a2a2a".
Proof. reflexivity. Qed.

Lemma demo_authenticated :
  authenticated demo_bearer logged_in_world (VStr "EMP001") authenticated_world.
Proof. exists (Some (token_hex demo_entropy)). split; reflexivity. Qed.

Lemma demo_authenticated_tasked :
  authenticated demo_bearer tasked_world (VStr "EMP001")
    (auth_dependency (Some (token_hex demo_entropy)) tasked_world).2.
Proof. exists (Some (token_hex demo_entropy)). split; reflexivity. Qed.

Lemma basic_not_bearer (a : string) :
  Some "Basic dXNlcjpwdw==" = Some a → ¬ bearer_form a.
Proof.
  intros [= <-] Hb.
  destruct (bearer_form_token _ fresh_world Hb) as (tok & _ & Ht).
  discriminate Ht.
Qed.


Lemma create_task_auth_first_witness :
  create_task sample_str reboot_request (Some "Basic dXNlcjpwdw==") seeded_world
    = (Raises (HTTPException 401 "Token required"), seeded_world)
  ∧ (create_task sample_str reboot_request (Some "Bearer 00ff") seeded_world).1
    = Raises (HTTPException 401 "Invalid token").
Proof.
  split.
  - apply (create_task_auth_first sample_str reboot_request
             (Some "Basic dXNlcjpwdw==") seeded_world).
    apply basic_not_bearer.
  - apply (create_task_auth_first sample_str reboot_request
             (Some "Bearer 00ff") seeded_world) with (scheme := "Bearer")
             (tok := "00ff") (s := seeded_store).
    + reflexivity.
    + reflexivity.
    + discriminate.
    + reflexivity.
    + apply (first_match_None ("token", VStr "00ff")). reflexivity.
Defined.

Lemma create_task_persists_witness :
  (create_task sample_str install_request demo_bearer logged_in_world).1 =
  Returns {| resp_id := "3"; resp_status := "pending" |}.
Proof.
  destruct (create_task_persists sample_str install_request demo_bearer
              logged_in_world authenticated_world (VStr "EMP001")
              logged_in_store demo_authenticated)
    as (w2 & s2 & stored & Hrun & _).
  - reflexivity.
  - apply (bool_decide_unpack _). reflexivity.
  - by rewrite Hrun.
Defined.

Lemma create_task_invalid_type_witness :
  create_task sample_str reboot_request demo_bearer logged_in_world =
  (Raises (HTTPException 400 "Invalid task type"), authenticated_world).
Proof.
  apply (create_task_invalid_type sample_str reboot_request demo_bearer
           logged_in_world authenticated_world (VStr "EMP001")
           demo_authenticated).
  apply (bool_decide_unpack _). reflexivity.
Defined.

Lemma list_my_tasks_owned_witness :
  (list_my_tasks sample_str demo_bearer tasked_world).1 =
  Returns [ <["id" := VStr "3"]> (task_doc (VStr "EMP001") install_request) ].
Proof.
  destruct (list_my_tasks_owned sample_str demo_bearer tasked_world
              (auth_dependency (Some (token_hex demo_entropy)) tasked_world).2
              (VStr "EMP001") tasked_store demo_authenticated_tasked)
    as (rs & w2 & Hrun & -> & _).
  - reflexivity.
  - rewrite Hrun. cbn [fst]. apply (f_equal Returns).
    apply (bool_decide_unpack _). vm_compute. exact I.
Defined.



(** * Further properties of the handlers *)

(** ** The bearer token *)

(** Extracting the token from [authorization] never raises (the index
    [[1]] after [split(" ", 1)] is always in range) and leaves the world
    alone; it yields [tok] exactly when the value is a scheme that
    lower-cases to "bearer", one space, and [tok], which may be empty or
    contain further spaces. *)
Theorem bearer_token_extracts (authorization : option string) (w : world) :
  ∃ token,
    bearer_token authorization w = (Returns token, w)
    ∧ ∀ tok, token = Some tok ↔
        ∃ scheme, authorization = Some (scheme +:+ " " +:+ tok)
                  ∧ str_lower scheme = "bearer".
Proof.
  assert (∀ tok, (∃ scheme, authorization = Some (scheme +:+ " " +:+ tok)
                    ∧ str_lower scheme = "bearer") →
                 bearer_token authorization w = (Returns (Some tok), w)) as Hback.
  { intros tok (scheme & -> & Hs). by apply bearer_token_wellformed. }
  unfold bearer_token in *.
  destruct authorization as [a|]; cbn [str_truthy andb] in *.
  2:{ exists None. split; [reflexivity|]. intros tok.
      split; [done|]. by intros (? & ? & _). }
  change (default EmptyString (Some a)) with a in *.
  destruct (negb (a =? EmptyString)%string); cbn [andb] in *.
  2:{ exists None. split; [reflexivity|]. intros tok. split; [done|].
      intros H. by specialize (Hback tok H). }
  destruct (startswith "bearer " (str_lower a)) eqn:Hp.
  2:{ exists None. split; [reflexivity|]. intros tok. split; [done|].
      intros H. by specialize (Hback tok H). }
  destruct (bearer_prefix_split a Hp) as (scheme & tok & Heq & Hs & Hsplit).
  rewrite Hsplit in *. cbn [lookup list_lookup] in *. exists (Some tok).
  split; [reflexivity|]. intros tok'. split.
  - intros [= <-]. exists scheme. split; [congruence|done].
  - intros H. specialize (Hback tok' H). by injection Hback as ->.
Qed.

(** ** The session token *)

Lemma hexlify_cons (b : byte) (r : list byte) :
  hexlify (b :: r) =
  String (hex_digit (Byte.to_N b / 16))
    (String (hex_digit (Byte.to_N b mod 16)) (hexlify r)).
Proof. reflexivity. Qed.


Lemma unhex_hex_byte (b : byte) :
  unhex_digit (hex_digit (Byte.to_N b / 16)) = Some (Byte.to_N b / 16)%N
  ∧ unhex_digit (hex_digit (Byte.to_N b mod 16)) = Some (Byte.to_N b mod 16)%N
  ∧ Byte.of_N (Byte.to_N b / 16 * 16 + Byte.to_N b mod 16) = Some b.
Proof. destruct b; vm_compute; done. Qed.

Lemma unhexlify_hexlify (bs : list byte) : unhexlify (hexlify bs) = Some bs.
Proof.
  induction bs as [|b r IH]; [done|]. rewrite hexlify_cons.
  destruct (unhex_hex_byte b) as (Hh & Hl & Hb).
  cbn [unhexlify]. by rewrite Hh, Hl, IH, Hb.
Qed.


Lemma login_returns_configured payload entropy (w w1 : world) resp :
  login payload entropy w = (Returns resp, w1) →
  ∃ s, db w = Some s ∧ calls w1 =
         calls w ++ [FindOne "employee" ("nik", VStr (req_nik payload));
                     InsertOne "session"
                       (session_doc (token_hex entropy) (req_nik payload))]
       ∧ resp_token resp = token_hex entropy
       ∧ resp_nik resp = req_nik payload
       ∧ db w1 = Some (store_insert "session"
                         (session_doc (token_hex entropy) (req_nik payload)) s).
Proof.
  destruct w as [[s|] cs]; [|done]. intros Hrun. exists s. split; [done|].
  pose proof (login_success_inv _ _ _ _ _ _ Hrun) as (Ht & Hn & Hdb).
  repeat split; try done. revert Hrun. rewrite login_configured. cbn zeta.
  destruct (first_match _ _) as [u|]; [|done].
  case_bool_decide; [|done].
  intros (_ & _ & ->)%make_LoginResponse_inv. simpl. by rewrite <- app_assoc.
Qed.


Lemma demo_login_runs :
  login demo_login demo_entropy seeded_world =
  (Returns {| resp_token := token_hex demo_entropy; resp_nik := "EMP001";
              resp_name := Some "Demo User"; resp_division := Some "IT" |},
   logged_in_world).
Proof. reflexivity. Qed.


(** Two successful logins that drew different bytes hand out different
    tokens, whoever logged in and whatever the store held. *)
Theorem login_tokens_distinct (p1 p2 : LoginRequest) (e1 e2 : list byte)
    (w w1 w' w2 : world) (r1 r2 : LoginResponse) :
  login p1 e1 w = (Returns r1, w1) →
  login p2 e2 w' = (Returns r2, w2) →
  e1 ≠ e2 →
  resp_token r1 ≠ resp_token r2.
Proof.
  intros (_ & _ & _ & -> & _)%login_returns_configured
         (_ & _ & _ & -> & _)%login_returns_configured Hne Heq.
  apply Hne. apply (f_equal unhexlify) in Heq. unfold token_hex in Heq.
  rewrite !unhexlify_hexlify in Heq. by injection Heq.
Qed.

Lemma login_tokens_distinct_witness :
  token_hex demo_entropy ≠ token_hex (replicate 16 x07%byte).
Proof.
  apply (login_tokens_distinct demo_login demo_login demo_entropy
           (replicate 16 x07%byte) seeded_world logged_in_world
           logged_in_world
           (login demo_login (replicate 16 x07%byte) logged_in_world).2
           {| resp_token := token_hex demo_entropy; resp_nik := "EMP001";
              resp_name := Some "Demo User"; resp_division := Some "IT" |}
           {| resp_token := token_hex (replicate 16 x07%byte);
              resp_nik := "EMP001";
              resp_name := Some "Demo User"; resp_division := Some "IT" |}).
  - reflexivity.
  - reflexivity.
  - discriminate.
Defined.

(** ** What login writes *)

Lemma make_LoginResponse_raises token nik name division (w : world) e :
  (make_LoginResponse token nik name division w).1 = Raises e →
  ∃ field, e = ValidationError field.
Proof.
  unfold make_LoginResponse, bind, validate_str, validate_opt_str, ret, raise.
  destruct nik; simpl; try (intros [= <-]; eauto).
  destruct name; simpl; try (intros [= <-]; eauto);
    destruct division; simpl; try (intros [= <-]; eauto); discriminate.
Qed.

(** A login refused with an HTTP error (unknown identifier, wrong
    password, unconfigured store) writes nothing: the store is left as it
    was. *)
Theorem login_failure_writes_nothing (payload : LoginRequest)
    (entropy : list byte) (w : world) (code : nat) (detail : string) :
  (login payload entropy w).1 = Raises (HTTPException code detail) →
  db (login payload entropy w).2 = db w.
Proof.
  destruct w as [[s|] cs]; [|done]. rewrite login_configured. cbn zeta.
  destruct (first_match _ _) as [u|]; [|done].
  case_bool_decide; [|done].
  intros (field & Hf)%make_LoginResponse_raises. discriminate Hf.
Qed.

Lemma login_failure_writes_nothing_witness :
  db (login {| req_nik := "EMP001"; req_password := "54321" |} demo_entropy
        seeded_world).2 = db seeded_world.
Proof.
  apply (login_failure_writes_nothing
           {| req_nik := "EMP001"; req_password := "54321" |} demo_entropy
           seeded_world 401 "Password salah").
  reflexivity.
Defined.

(** A successful login makes two driver calls, the employee lookup and the
    session insert, and its only effect on the store is one new record at
    the end of the session collection, binding the returned token to the
    returned identifier. *)
Theorem login_success_effect (payload : LoginRequest) (entropy : list byte)
    (w w1 : world) (s : database) (resp : LoginResponse) :
  login payload entropy w = (Returns resp, w1) →
  db w = Some s →
  ∃ s1,
    db w1 = Some s1
    ∧ docs_of s1 "session" =
        docs_of s "session"
        ++ [ <["_id" := VOid (next_oid s)]>
               (session_doc (resp_token resp) (resp_nik resp)) ]
    ∧ (∀ name, name ≠ "session" → docs_of s1 name = docs_of s name)
    ∧ calls w1 =
        calls w ++ [FindOne "employee" ("nik", VStr (req_nik payload));
                    InsertOne "session"
                      (session_doc (resp_token resp) (resp_nik resp))].
Proof.
  intros (s' & Hs & Hcalls & -> & -> & Hdb1)%login_returns_configured Hdb.
  rewrite Hdb in Hs. injection Hs as <-. eexists. split; [exact Hdb1|].
  split; [|split; [|done]].
  - by rewrite docs_of_insert, decide_True, with_id_fresh by done.
  - intros name Hn. by rewrite docs_of_insert, decide_False.
Qed.

Lemma login_success_effect_witness :
  calls logged_in_world =
  calls seeded_world
  ++ [FindOne "employee" ("nik", VStr "EMP001");
      InsertOne "session" (session_doc (token_hex demo_entropy) "EMP001")].
Proof.
  destruct (login_success_effect demo_login demo_entropy seeded_world
              logged_in_world seeded_store _ demo_login_runs seeded_world_db)
    as (s1 & _ & _ & _ & Hcalls).
  exact Hcalls.
Defined.

(** Login looks at the employee collection only: two configured stores
    with the same employees give the same answer, whatever sessions and
    tasks they hold.  Existing sessions never block or alter a login. *)
Theorem login_reads_only_employees (payload : LoginRequest)
    (entropy : list byte) (w w' : world) (s s' : database) :
  db w = Some s → db w' = Some s' →
  docs_of s "employee" = docs_of s' "employee" →
  (login payload entropy w).1 = (login payload entropy w').1.
Proof.
  intros Hs Hs' He. destruct w as [o cs], w' as [o' cs']. simpl in *. subst.
  rewrite !login_configured. cbn zeta. rewrite He.
  destruct (first_match _ _) as [u|]; [|done].
  case_bool_decide; [|done]. apply make_LoginResponse_result.
Qed.

Lemma login_reads_only_employees_witness :
  (login demo_login demo_entropy logged_in_world).1 =
  (login demo_login demo_entropy seeded_world).1.
Proof.
  apply (login_reads_only_employees demo_login demo_entropy logged_in_world
           seeded_world logged_in_store seeded_store).
  - reflexivity.
  - reflexivity.
  - apply (bool_decide_unpack _). vm_compute. exact I.
Defined.

(** ** What the authenticator reads *)

Lemma first_match_split (q : query) (pre post : list doc) (d : doc) :
  Forall (λ e : doc, e !! q.1 ≠ Some q.2) pre →
  d !! q.1 = Some q.2 →
  first_match q (pre ++ d :: post) = Some d.
Proof.
  intros Hpre Hd. rewrite first_match_app.
  apply first_match_None in Hpre. rewrite Hpre. simpl.
  unfold matches. by rewrite bool_decide_eq_true_2.
Qed.

(** The authenticator looks at the session collection only: it does not
    check that the employee of the session still exists or is active.  Two
    configured stores with the same sessions give the same answer. *)
Theorem auth_reads_only_sessions (token : option string) (w w' : world)
    (s s' : database) :
  db w = Some s → db w' = Some s' →
  docs_of s "session" = docs_of s' "session" →
  (auth_dependency token w).1 = (auth_dependency token w').1.
Proof.
  intros Hs Hs' He. destruct w as [o cs], w' as [o' cs']. simpl in *. subst.
  destruct (str_truthy token) eqn:Ht;
    [|by rewrite !auth_dependency_no_token].
  destruct token as [tok|]; [|done].
  assert (tok ≠ EmptyString) as Hne by (intros ->; discriminate).
  rewrite !auth_dependency_configured by done. cbn zeta. rewrite He.
  destruct (first_match _ _) as [d|]; [|done]. by destruct (d !! "nik").
Qed.

Lemma auth_reads_only_sessions_witness :
  (auth_dependency (Some (token_hex demo_entropy))
     (World (Some (map_employees (λ _, ∅) logged_in_store)) [])).1 =
  (auth_dependency (Some (token_hex demo_entropy)) logged_in_world).1.
Proof.
  apply (auth_reads_only_sessions (Some (token_hex demo_entropy))
           (World (Some (map_employees (λ _, ∅) logged_in_store)) [])
           logged_in_world
           (map_employees (λ _, ∅) logged_in_store) logged_in_store).
  - reflexivity.
  - reflexivity.
  - apply (bool_decide_unpack _). vm_compute. exact I.
Defined.

(** When several sessions carry the same token the earliest one in store
    order decides: the authenticator returns its identifier, whatever
    follows it in the collection. *)
Theorem auth_first_session_wins (tok : string) (w : world) (s : database)
    (pre post : list doc) (d : doc) (nik : value) :
  tok ≠ EmptyString →
  db w = Some s →
  docs_of s "session" = pre ++ d :: post →
  Forall (λ e : doc, e !! "token" ≠ Some (VStr tok)) pre →
  d !! "token" = Some (VStr tok) →
  d !! "nik" = Some nik →
  (auth_dependency (Some tok) w).1 = Returns nik.
Proof.
  intros Hne Hs Hsess Hpre Ht Hn. destruct w as [o cs]. simpl in Hs. subst o.
  rewrite auth_dependency_configured by done. cbn zeta. rewrite Hsess.
  rewrite (first_match_split ("token", VStr tok)) by done. by rewrite Hn.
Qed.

(** A session record without an identifier makes the authenticator fail
    with [KeyError] on [doc["nik"]], a server error rather than a 401; so
    do both protected routes. *)
Theorem auth_session_without_nik (py_str : value → string)
    (payload : TaskCreateRequest) (tok : string) (w : world) (s : database)
    (pre post : list doc) (d : doc) :
  tok ≠ EmptyString →
  db w = Some s →
  docs_of s "session" = pre ++ d :: post →
  Forall (λ e : doc, e !! "token" ≠ Some (VStr tok)) pre →
  d !! "token" = Some (VStr tok) →
  d !! "nik" = None →
  (auth_dependency (Some tok) w).1 = Raises (KeyError "nik")
  ∧ status_of (KeyError "nik") = 500
  ∧ (create_task py_str payload (Some ("Bearer " +:+ tok)) w).1
      = Raises (KeyError "nik")
  ∧ (list_my_tasks py_str (Some ("Bearer " +:+ tok)) w).1
      = Raises (KeyError "nik").
Proof.
  intros Hne Hs Hsess Hpre Ht Hn. destruct w as [o cs]. simpl in Hs. subst o.
  assert (auth_dependency (Some tok) (World (Some s) cs) =
          (Raises (KeyError "nik"),
           World (Some s) (cs ++ [FindOne "session" ("token", VStr tok)])))
    as Hauth.
  { rewrite auth_dependency_configured by done. cbn zeta. rewrite Hsess.
    rewrite (first_match_split ("token", VStr tok)) by done. by rewrite Hn. }
  assert (bearer_token (Some ("Bearer " +:+ tok)) (World (Some s) cs) =
          (Returns (Some tok), World (Some s) cs)) as Hb.
  { by apply (bearer_token_wellformed "Bearer"). }
  rewrite (create_task_after_auth _ _ _ _ _ Hb).
  rewrite (list_my_tasks_after_auth _ _ _ _ Hb). by rewrite Hauth.
Qed.

Lemma auth_first_session_wins_witness :
  (auth_dependency (Some "00ff") (World (Some duplicate_store) [])).1 =
  Returns (VStr "EMP001").
Proof.
  apply (auth_first_session_wins "00ff" (World (Some duplicate_store) [])
           duplicate_store [] [session_doc "00ff" "555501254121"]
           (session_doc "00ff" "EMP001") (VStr "EMP001")).
  - discriminate.
  - reflexivity.
  - reflexivity.
  - constructor.
  - reflexivity.
  - reflexivity.
Defined.

Lemma auth_session_without_nik_witness :
  (list_my_tasks sample_str (Some "Bearer 00ff")
     (World (Some orphan_store) [])).1 = Raises (KeyError "nik").
Proof.
  apply (auth_session_without_nik sample_str install_request "00ff"
           (World (Some orphan_store) []) orphan_store [] []
           ({[ "token" := VStr "00ff" ]} : doc)).
  - discriminate.
  - reflexivity.
  - reflexivity.
  - constructor.
  - reflexivity.
  - reflexivity.
Defined.

(** ** Creating and listing tasks *)

Lemma bearer_token_any_world (authorization : option string) (w w' : world)
    (token : option string) :
  bearer_token authorization w = (Returns token, w) →
  bearer_token authorization w' = (Returns token, w').
Proof.
  unfold bearer_token.
  destruct (_ && _); [|by intros [= <-]].
  destruct (_ !! _); [by intros [= <-]|done].
Qed.

Lemma auth_dependency_same_sessions (token : option string) (s s' : database)
    cs cs' :
  docs_of s "session" = docs_of s' "session" →
  (auth_dependency token (World (Some s) cs)).1 =
  (auth_dependency token (World (Some s') cs')).1.
Proof.
  intros He. destruct (str_truthy token) eqn:Ht;
    [|by rewrite !auth_dependency_no_token].
  destruct token as [tok|]; [|done].
  assert (tok ≠ EmptyString) as Hne by (intros ->; discriminate).
  rewrite !auth_dependency_configured by done. cbn zeta. rewrite He.
  destruct (first_match _ _) as [d|]; [|done]. by destruct (d !! "nik").
Qed.

(** Authentication carries over to any world whose sessions are the same. *)
Lemma authenticated_same_sessions authorization (w w1 : world) (nik : value)
    (s s' : database) cs' :
  authenticated authorization w nik w1 →
  db w = Some s →
  docs_of s' "session" = docs_of s "session" →
  ∃ w1', authenticated authorization (World (Some s') cs') nik w1'.
Proof.
  intros (token & Hb & Ha) Hs He. destruct w as [o cs]. simpl in Hs. subst o.
  pose proof (auth_dependency_same_sessions token s' s cs' cs He) as Hsame.
  rewrite Ha in Hsame. simpl in Hsame.
  destruct (auth_dependency token (World (Some s') cs')) as [r w1'] eqn:Ha'.
  simpl in Hsame. subst r. exists w1', token. split; [|done].
  by apply (bearer_token_any_world _ _ _ _ Hb).
Qed.

Lemma authenticated_calls authorization (w w1 : world) (nik : value) :
  authenticated authorization w nik w1 →
  ∃ tok, calls w1 = calls w ++ [FindOne "session" ("token", VStr tok)].
Proof.
  intros (token & _ & Ha).
  destruct (str_truthy token) eqn:Ht;
    [|by rewrite auth_dependency_no_token in Ha].
  destruct token as [tok|]; [|done]. exists tok.
  assert (tok ≠ EmptyString) as Hne by (intros ->; discriminate).
  destruct w as [[s|] cs];
    [|by rewrite auth_dependency_unconfigured in Ha].
  rewrite auth_dependency_configured in Ha by done. cbn zeta in Ha.
  destruct (first_match _ _) as [d|]; [|done].
  destruct (d !! "nik"); [|done]. by injection Ha as _ <-.
Qed.

Section TaskFlow.

Variable py_str : value → string.

Lemma create_task_run payload authorization (w w1 : world) nik (s : database) :
  authenticated authorization w nik w1 →
  db w = Some s →
  req_type payload ∈ task_types →
  create_task py_str payload authorization w =
  (Returns {| resp_id := py_str (VOid (next_oid s));
              resp_status := "pending" |},
   World (Some (store_insert "task" (task_doc nik payload) s))
         (calls w1 ++ [InsertOne "task" (task_doc nik payload)])).
Proof.
  intros Ha Hdb Ht. rewrite (create_task_authenticated _ _ _ _ _ _ Ha).
  rewrite bool_decide_eq_true_2 by done.
  destruct (authenticated_store _ _ _ _ Ha) as (s' & Hs & Hs1).
  rewrite Hdb in Hs. injection Hs as <-. destruct w1 as [o cs1].
  simpl in Hs1. subst o. unfold bind at 1.
  by rewrite create_document_configured by apply task_doc_no_id.
Qed.

Lemma list_my_tasks_run authorization (w w1 : world) nik (s : database) :
  authenticated authorization w nik w1 →
  db w = Some s →
  list_my_tasks py_str authorization w =
  (Returns (expose_id py_str <$>
              take 50 (List.filter (matches ("nik", nik)) (docs_of s "task"))),
   World (Some s) (calls w1 ++ [Find "task" ("nik", nik) 50])).
Proof.
  intros Ha Hdb. pose proof Ha as (token & Hb & Hauth).
  rewrite (list_my_tasks_after_auth _ _ _ _ Hb), Hauth.
  destruct (authenticated_store _ _ _ _ Ha) as (s' & Hs & Hs1).
  rewrite Hdb in Hs. injection Hs as <-. destruct w1 as [o cs1].
  simpl in Hs1. by subst o.
Qed.

Lemma list_my_tasks_db (authorization : option string) (w : world) :
  db (list_my_tasks py_str authorization w).2 = db w.
Proof.
  destruct (bearer_token_returns authorization w) as (token & Hb & _).
  rewrite (list_my_tasks_after_auth _ _ _ _ Hb).
  pose proof (auth_dependency_db token w) as Hdb.
  destruct (auth_dependency token w) as [[nik|e] w1]; [|done].
  simpl in Hdb. unfold bind, get_documents.
  destruct (db w1) eqn:E; simpl; congruence.
Qed.

(** Listing is a pure read: whatever the header and whether it succeeds
    or fails, [list_my_tasks] leaves the store exactly as it was, and the
    only driver calls it adds are reads. *)
Theorem list_my_tasks_read_only (authorization : option string) (w : world) :
  db (list_my_tasks py_str authorization w).2 = db w
  ∧ ∃ reads, calls (list_my_tasks py_str authorization w).2 = calls w ++ reads
      ∧ Forall (λ c, ∀ name d, c ≠ InsertOne name d) reads.
Proof.
  split; [apply list_my_tasks_db|].
  destruct (bearer_token_returns authorization w) as (token & Hb & _).
  rewrite (list_my_tasks_after_auth _ _ _ _ Hb).
  destruct (str_truthy token) eqn:Ht.
  2:{ rewrite auth_dependency_no_token by done. exists [].
      by rewrite app_nil_r. }
  destruct token as [tok|]; [|done].
  assert (tok ≠ EmptyString) as Hne by (intros ->; discriminate).
  destruct w as [[s|] cs].
  2:{ rewrite auth_dependency_unconfigured by done. exists [].
      by rewrite app_nil_r. }
  rewrite auth_dependency_configured by done. cbn zeta.
  destruct (first_match _ _) as [d|];
    [|eexists [_]; split; [reflexivity|by repeat constructor]].
  destruct (d !! "nik");
    [|eexists [_]; split; [reflexivity|by repeat constructor]].
  unfold bind. rewrite get_documents_configured. cbn [snd calls].
  eexists [_; _]. rewrite <- app_assoc. split; [reflexivity|].
  by repeat constructor.
Qed.

Lemma stored_task_listed (nik : value) (payload : TaskCreateRequest) (o : N) :
  matches ("nik", nik) (with_id o (task_doc nik payload)) = true
  ∧ expose_id py_str (with_id o (task_doc nik payload)) =
      <["id" := VStr (py_str (VOid o))]> (task_doc nik payload).
Proof.
  rewrite with_id_fresh by apply task_doc_no_id. split.
  - unfold matches. apply bool_decide_eq_true_2. unfold task_doc.
    by simplify_map_eq.
  - unfold expose_id. rewrite lookup_insert_eq, delete_insert_eq.
    by rewrite delete_id by apply task_doc_no_id.
Qed.

(** Create, then list: while the employee owns fewer than 50 tasks, a
    task they create shows up in their next listing under the identifier
    that [create_task] returned, together with everything the listing
    showed before; where in the listing is left open. *)
Theorem created_task_is_listed (payload : TaskCreateRequest)
    (authorization : option string) (w w1 : world) (nik : value)
    (s : database) :
  authenticated authorization w nik w1 →
  db w = Some s →
  req_type payload ∈ task_types →
  (List.length (List.filter (matches ("nik", nik)) (docs_of s "task")) < 50)%nat →
  ∃ resp w2 before after,
    create_task py_str payload authorization w = (Returns resp, w2)
    ∧ (list_my_tasks py_str authorization w).1 = Returns before
    ∧ (list_my_tasks py_str authorization w2).1 = Returns after
    ∧ after ≡ₚ <["id" := VStr (resp_id resp)]> (task_doc nik payload) :: before.
Proof.
  intros Ha Hdb Ht Hlen.
  rewrite (create_task_run _ _ _ _ _ _ Ha Hdb Ht).
  rewrite (list_my_tasks_run _ _ _ _ _ Ha Hdb).
  destruct (authenticated_same_sessions authorization w w1 nik s
              (store_insert "task" (task_doc nik payload) s)
              (calls w1 ++ [InsertOne "task" (task_doc nik payload)]) Ha Hdb)
    as (w1' & Ha'); [by rewrite docs_of_insert, decide_False|].
  eexists _, _, _, _. split; [reflexivity|]. split; [reflexivity|].
  rewrite (list_my_tasks_run _ _ _ _ _ Ha' eq_refl).
  split; [reflexivity|]. cbn [resp_id].
  rewrite docs_of_insert, decide_True by done.
  rewrite List.filter_app. cbn [List.filter].
  destruct (stored_task_listed nik payload (next_oid s)) as [Hm He].
  rewrite Hm.
  rewrite !firstn_all2 by (rewrite ?length_app; simpl; lia).
  rewrite fmap_app. cbn [fmap list_fmap]. rewrite He.
  by rewrite <- Permutation_cons_append.
Qed.

Lemma snoc_at_cap {A} (n : nat) (l : list A) (x : A) :
  (n ≤ List.length l)%nat →
  List.length (l ++ [x]) = S (List.length l)
  ∧ List.length (take n (l ++ [x])) = n.
Proof.
  intros Hl. rewrite length_take, length_app. simpl. lia.
Qed.

(** At the cap the listing is incomplete: once the employee owns 50 tasks
    or more, a further creation succeeds and is stored, so that they own
    at least 51, but their next listing still returns exactly 50
    records. *)
Theorem listing_truncates_at_cap (payload : TaskCreateRequest)
    (authorization : option string) (w w1 : world) (nik : value)
    (s : database) :
  authenticated authorization w nik w1 →
  db w = Some s →
  req_type payload ∈ task_types →
  (50 ≤ List.length (List.filter (matches ("nik", nik)) (docs_of s "task")))%nat →
  ∃ resp w2 s2 after,
    create_task py_str payload authorization w = (Returns resp, w2)
    ∧ db w2 = Some s2
    ∧ List.length (List.filter (matches ("nik", nik)) (docs_of s2 "task"))
      = S (List.length (List.filter (matches ("nik", nik)) (docs_of s "task")))
    ∧ (list_my_tasks py_str authorization w2).1 = Returns after
    ∧ List.length after = 50%nat.
Proof.
  intros Ha Hdb Ht Hlen.
  rewrite (create_task_run _ _ _ _ _ _ Ha Hdb Ht).
  destruct (authenticated_same_sessions authorization w w1 nik s
              (store_insert "task" (task_doc nik payload) s)
              (calls w1 ++ [InsertOne "task" (task_doc nik payload)]) Ha Hdb)
    as (w1' & Ha'); [by rewrite docs_of_insert, decide_False|].
  eexists _, _, _, _. split; [reflexivity|]. split; [reflexivity|].
  rewrite (list_my_tasks_run _ _ _ _ _ Ha' eq_refl).
  rewrite docs_of_insert, decide_True by done.
  rewrite List.filter_app. cbn [List.filter].
  destruct (stored_task_listed nik payload (next_oid s)) as [Hm _].
  rewrite Hm.
  destruct (snoc_at_cap 50 _ (with_id (next_oid s) (task_doc nik payload)) Hlen)
    as [Hall Hcut].
  split; [exact Hall|]. split; [reflexivity|].
  rewrite length_fmap. exact Hcut.
Qed.

(** Isolation: a task created by one employee never changes what another
    employee's listing returns. *)
Theorem other_listing_unchanged (payload : TaskCreateRequest)
    (mine theirs : option string) (w w1 w1' : world) (nik other : value)
    (s : database) :
  authenticated mine w nik w1 →
  authenticated theirs w other w1' →
  nik ≠ other →
  db w = Some s →
  req_type payload ∈ task_types →
  ∃ resp w2,
    create_task py_str payload mine w = (Returns resp, w2)
    ∧ (list_my_tasks py_str theirs w2).1 = (list_my_tasks py_str theirs w).1.
Proof.
  intros Ha Hb Hne Hdb Ht.
  rewrite (create_task_run _ _ _ _ _ _ Ha Hdb Ht).
  rewrite (list_my_tasks_run _ _ _ _ _ Hb Hdb).
  eexists _, _. split; [reflexivity|].
  destruct (authenticated_same_sessions theirs w w1' other s
              (store_insert "task" (task_doc nik payload) s)
              (calls w1 ++ [InsertOne "task" (task_doc nik payload)]) Hb Hdb)
    as (w1'' & Hb'); [by rewrite docs_of_insert, decide_False|].
  rewrite (list_my_tasks_run _ _ _ _ _ Hb' eq_refl). cbn [fst]. do 2 f_equal.
  rewrite docs_of_insert, decide_True by done.
  rewrite List.filter_app. cbn [List.filter].
  replace (matches ("nik", other) (with_id (next_oid s) (task_doc nik payload)))
    with false; [by rewrite app_nil_r|].
  symmetry. unfold matches. apply bool_decide_eq_false_2.
  rewrite with_id_lookup by done. unfold task_doc. simplify_map_eq. congruence.
Qed.

End TaskFlow.

Lemma install_is_a_task_type : req_type install_request ∈ task_types.
Proof. apply (bool_decide_unpack _). reflexivity. Qed.

Lemma created_task_is_listed_witness :
  ∃ resp w2 before after,
    create_task sample_str install_request demo_bearer logged_in_world
      = (Returns resp, w2)
    ∧ (list_my_tasks sample_str demo_bearer logged_in_world).1 = Returns before
    ∧ (list_my_tasks sample_str demo_bearer w2).1 = Returns after
    ∧ after ≡ₚ <["id" := VStr (resp_id resp)]>
                 (task_doc (VStr "EMP001") install_request) :: before.
Proof.
  apply (created_task_is_listed sample_str install_request demo_bearer
           logged_in_world authenticated_world (VStr "EMP001") logged_in_store
           demo_authenticated).
  - reflexivity.
  - apply install_is_a_task_type.
  - vm_compute. lia.
Defined.

Lemma full_store_authenticated :
  authenticated demo_bearer (World (Some full_store) []) (VStr "EMP001")
    (auth_dependency (Some (token_hex demo_entropy))
       (World (Some full_store) [])).2.
Proof. exists (Some (token_hex demo_entropy)). split; reflexivity. Qed.

Lemma listing_truncates_at_cap_witness :
  ∃ resp w2 s2 after,
    create_task sample_str install_request demo_bearer
      (World (Some full_store) []) = (Returns resp, w2)
    ∧ db w2 = Some s2
    ∧ List.length
        (List.filter (matches ("nik", VStr "EMP001")) (docs_of s2 "task"))
      = S (List.length
             (List.filter (matches ("nik", VStr "EMP001"))
                (docs_of full_store "task")))
    ∧ (list_my_tasks sample_str demo_bearer w2).1 = Returns after
    ∧ List.length after = 50%nat.
Proof.
  apply (listing_truncates_at_cap sample_str install_request
           demo_bearer (World (Some full_store) []) _ (VStr "EMP001")
           full_store full_store_authenticated).
  - reflexivity.
  - apply install_is_a_task_type.
  - vm_compute. lia.
Defined.

Lemma shared_authenticated_demo :
  authenticated demo_bearer shared_world (VStr "EMP001")
    (auth_dependency (Some (token_hex demo_entropy)) shared_world).2.
Proof. exists (Some (token_hex demo_entropy)). split; reflexivity. Qed.

Lemma shared_authenticated_other :
  authenticated other_bearer shared_world (VStr "555501254121")
    (auth_dependency (Some (token_hex other_entropy)) shared_world).2.
Proof. exists (Some (token_hex other_entropy)). split; reflexivity. Qed.

Lemma other_listing_unchanged_witness :
  ∃ resp w2,
    create_task sample_str install_request demo_bearer shared_world
      = (Returns resp, w2)
    ∧ (list_my_tasks sample_str other_bearer w2).1 =
      (list_my_tasks sample_str other_bearer shared_world).1.
Proof.
  apply (other_listing_unchanged sample_str install_request demo_bearer
           other_bearer shared_world _ _ (VStr "EMP001") (VStr "555501254121")
           shared_store shared_authenticated_demo shared_authenticated_other).
  - discriminate.
  - reflexivity.
  - apply install_is_a_task_type.
Defined.

(** ** Seeding, then logging in *)

Lemma docs_of_seed_if_absent (nik : string) (d : doc) (s : database) :
  docs_of (seed_if_absent nik d s) "employee" =
  docs_of s "employee"
  ++ if decide (unknown_nik nik s) then [with_id (next_oid s) d] else [].
Proof.
  unfold seed_if_absent. case_decide; [|by rewrite app_nil_r].
  by rewrite docs_of_insert, decide_True.
Qed.

Lemma seed_employee_world (w : world) (s : database) :
  db w = Some s →
  ∃ cs', (seed_employee w).2 =
         World (Some (seed_if_absent "555501254121" requested_user
                        (seed_if_absent "EMP001" demo_user s))) cs'.
Proof.
  intros Hdb. destruct w as [o cs]. simpl in Hdb. subst o.
  pose proof (seed_employee_configured s cs) as Hs.
  destruct (seed_employee (World (Some s) cs)) as [r [o cs']].
  simpl in Hs. subst o. by exists cs'.
Qed.

Lemma unknown_nik_seed_other (nik other : string) (d : doc) (s : database) :
  d !! "nik" ≠ Some (VStr other) →
  unknown_nik other s → unknown_nik other (seed_if_absent nik d s).
Proof.
  intros Hd Hu. unfold seed_if_absent. case_decide; [|done].
  rewrite unknown_nik_insert, with_id_lookup by done. by split.
Qed.

(** Seeding makes the demo accounts usable: on a store that had no record
    for a demo identifier, after the startup hook a login with that
    identifier and the password "12345" succeeds and returns the seeded
    name and division. *)
Theorem seeded_users_can_log_in (entropy : list byte) (w : world)
    (s : database) :
  db w = Some s →
  (unknown_nik "EMP001" s →
     (login {| req_nik := "EMP001"; req_password := "12345" |} entropy
        (seed_employee w).2).1 =
     Returns {| resp_token := token_hex entropy; resp_nik := "EMP001";
                resp_name := Some "Demo User"; resp_division := Some "IT" |})
  ∧ (unknown_nik "555501254121" s →
     (login {| req_nik := "555501254121"; req_password := "12345" |} entropy
        (seed_employee w).2).1 =
     Returns {| resp_token := token_hex entropy; resp_nik := "555501254121";
                resp_name := Some "User 555501254121";
                resp_division := Some "IT" |}).
Proof.
  intros Hdb. destruct (seed_employee_world w s Hdb) as (cs' & ->).
  split; intros Hu; rewrite login_configured; cbn zeta; cbn [req_nik].
  - rewrite !docs_of_seed_if_absent, (decide_True _ _ Hu).
    rewrite <- app_assoc, first_match_app.
    apply (first_match_None ("nik", VStr "EMP001")) in Hu. rewrite Hu.
    rewrite with_id_fresh by done. reflexivity.
  - assert (unknown_nik "555501254121" (seed_if_absent "EMP001" demo_user s))
      as Hu' by (by apply unknown_nik_seed_other).
    rewrite docs_of_seed_if_absent, (decide_True _ _ Hu').
    rewrite first_match_app.
    apply (first_match_None ("nik", VStr "555501254121")) in Hu'. rewrite Hu'.
    rewrite with_id_fresh by done. reflexivity.
Qed.

Lemma seeded_users_can_log_in_witness :
  (login {| req_nik := "555501254121"; req_password := "12345" |} demo_entropy
     (seed_employee fresh_world).2).1 =
  Returns {| resp_token := token_hex demo_entropy;
             resp_nik := "555501254121";
             resp_name := Some "User 555501254121";
             resp_division := Some "IT" |}.
Proof.
  apply (seeded_users_can_log_in demo_entropy fresh_world empty_store eq_refl).
  constructor.
Defined.

(** Seeding never resets an account: when a record for the demo identifier
    already exists with another password, it is kept, and after the
    startup hook a login with "12345" is still refused. *)
Theorem seeding_keeps_existing_password (entropy : list byte) (w : world)
    (s : database) (u : doc) :
  db w = Some s →
  employee_record "EMP001" s u →
  dict_get u "password" ≠ VStr "12345" →
  (login {| req_nik := "EMP001"; req_password := "12345" |} entropy
     (seed_employee w).2).1 = Raises (HTTPException 401 "Password salah").
Proof.
  intros Hdb Hu Hpw. destruct (seed_employee_world w s Hdb) as (cs' & ->).
  rewrite login_configured. cbn zeta. cbn [req_nik req_password].
  apply first_match_employee in Hu.
  rewrite !docs_of_seed_if_absent, <- app_assoc, first_match_app, Hu.
  by rewrite bool_decide_eq_false_2.
Qed.

Lemma seeding_keeps_existing_password_witness :
  (login {| req_nik := "EMP001"; req_password := "12345" |} demo_entropy
     (seed_employee
        (World (Some (map_employees (insert "password" (VStr "s3cret"))
                        seeded_store)) [])).2).1 =
  Raises (HTTPException 401 "Password salah").
Proof.
  apply (seeding_keeps_existing_password demo_entropy
           (World (Some (map_employees (insert "password" (VStr "s3cret"))
                           seeded_store)) [])
           (map_employees (insert "password" (VStr "s3cret")) seeded_store)
           (<["password" := VStr "s3cret"]> (<["_id" := VOid 0]> demo_user))).
  - reflexivity.
  - apply first_match_employee. apply (bool_decide_unpack _).
    vm_compute. exact I.
  - vm_compute. discriminate.
Defined.

(** ** Every request only appends *)

Section Writes.

Variable py_str : value → string.

Lemma seed_if_absent_writes (nik : string) (d : doc) (s : database) :
  (nik, d) ∈ [("EMP001", demo_user); ("555501254121", requested_user)] →
  rtc write s (seed_if_absent nik d s).
Proof.
  intros Hin. unfold seed_if_absent. case_decide; [|done].
  apply rtc_once. by eapply write_employee.
Qed.

Lemma login_writes payload entropy (s : database) cs :
  ∃ s', db (login payload entropy (World (Some s) cs)).2 = Some s'
        ∧ rtc write s s'.
Proof.
  rewrite login_configured. cbn zeta.
  destruct (first_match _ _) as [u|] eqn:Hu; [|by exists s].
  case_bool_decide; [|by exists s].
  rewrite make_LoginResponse_world. eexists. split; [reflexivity|].
  apply first_match_Some in Hu as [Hin Hnik].
  apply rtc_once. by eapply write_session.
Qed.

Lemma create_task_writes payload authorization (s : database) cs :
  ∃ s', db (create_task py_str payload authorization (World (Some s) cs)).2
          = Some s'
        ∧ rtc write s s'.
Proof.
  destruct (bearer_token_returns authorization (World (Some s) cs))
    as (token & Hb & _).
  rewrite (create_task_after_auth _ _ _ _ _ Hb).
  destruct (str_truthy token) eqn:Ht;
    [|rewrite auth_dependency_no_token by done; by exists s].
  destruct token as [tok|]; [|done].
  assert (tok ≠ EmptyString) as Hne by (intros ->; discriminate).
  rewrite auth_dependency_configured by done. cbn zeta.
  destruct (first_match _ _) as [d|] eqn:Hd; [|by exists s].
  destruct (d !! "nik") as [nik|] eqn:Hn; [|by exists s].
  case_bool_decide as Hty; [|by exists s].
  unfold bind. rewrite create_document_configured by apply task_doc_no_id.
  eexists. split; [reflexivity|].
  apply first_match_Some in Hd as [Hin _].
  apply rtc_once. by eapply write_task.
Qed.

Lemma serve_rtc_write (r : request) (w : world) (s : database) :
  db w = Some s →
  ∃ s', db (serve py_str r w).2 = Some s' ∧ rtc write s s'.
Proof.
  intros Hdb. destruct r as [|token|payload entropy|payload a|a]; simpl.
  - destruct (seed_employee_world w s Hdb) as (cs' & ->). eexists.
    split; [reflexivity|].
    etrans; apply seed_if_absent_writes; set_solver.
  - exists s. by rewrite auth_dependency_db.
  - destruct w as [o cs]. simpl in Hdb. subst o. apply login_writes.
  - destruct w as [o cs]. simpl in Hdb. subst o. apply create_task_writes.
  - exists s. by rewrite list_my_tasks_db.
Qed.

Lemma serve_all_writes (rs : list request) (w : world) (s : database) :
  db w = Some s →
  ∃ s', db (serve_all py_str rs w) = Some s' ∧ rtc write s s'.
Proof.
  revert w s. induction rs as [|r rs IH]; intros w s Hdb; [by exists s|].
  destruct (serve_rtc_write r w s Hdb) as (s1 & Hs1 & H1).
  destruct (IH _ _ Hs1) as (s2 & Hs2 & H2). exists s2. split; [done|].
  by etrans.
Qed.

(** The only effect requests have on a configured store is a sequence of
    [write]s: the startup hook seeds missing demo records, login binds a
    session to an employee on record, task creation files a task under a
    session's identifier, and nothing is ever updated or removed. *)
Theorem serve_writes (rs : list request) (w : world) (s : database) :
  db w = Some s →
  ∃ s', db (serve_all py_str rs w) = Some s' ∧ rtc write s s'.
Proof. apply serve_all_writes. Qed.

End Writes.

Lemma serve_writes_witness :
  ∃ s', db (serve_all sample_str
              [Startup; PostLogin demo_login demo_entropy;
               PostTask install_request demo_bearer; GetTasks demo_bearer]
              fresh_world) = Some s'
        ∧ rtc write empty_store s'.
Proof.
  apply (serve_writes sample_str
           [Startup; PostLogin demo_login demo_entropy;
            PostTask install_request demo_bearer; GetTasks demo_bearer]
           fresh_world empty_store).
  reflexivity.
Defined.

(** ** Invariants of the store *)

Lemma serve_unconfigured py_str (r : request) (w : world) :
  db w = None → db (serve py_str r w).2 = None.
Proof.
  intros Hdb. destruct w as [o cs]. simpl in Hdb. subst o.
  destruct r as [|token|payload entropy|payload a|a]; simpl; try done.
  - by rewrite auth_dependency_db.
  - destruct (bearer_token_returns a (World None cs)) as (token & Hb & _).
    rewrite (create_task_after_auth _ _ _ _ _ Hb).
    destruct (str_truthy token) eqn:Ht.
    + destruct token as [tok|]; [|done].
      assert (tok ≠ EmptyString) as Hne by (intros ->; discriminate).
      by rewrite auth_dependency_unconfigured.
    + by rewrite auth_dependency_no_token.
  - by rewrite list_my_tasks_db.
Qed.

Lemma serve_all_unconfigured py_str (rs : list request) (w : world) :
  db w = None → db (serve_all py_str rs w) = None.
Proof.
  revert w. induction rs as [|r rs IH]; intros w Hdb; [done|].
  simpl. apply IH. by apply serve_unconfigured.
Qed.

(** An invariant that every write keeps is kept by every run. *)
Lemma inv_rtc_write (I : database → Prop) py_str (rs : list request)
    (w : world) :
  (∀ s s', write s s' → I s → I s') →
  inv I w → inv I (serve_all py_str rs w).
Proof.
  intros Hstep Hw s' Hs'. destruct (db w) as [s|] eqn:Hdb.
  - destruct (serve_all_writes py_str rs w s Hdb) as (s'' & Hs'' & Hrtc).
    rewrite Hs' in Hs''. injection Hs'' as <-.
    specialize (Hw s Hdb). clear Hs' Hdb. induction Hrtc; eauto.
  - by rewrite serve_all_unconfigured in Hs'.
Qed.

Lemma all_docs_insert (P : string → doc → Prop) (name : string) (d : doc)
    (s : database) :
  P name (with_id (next_oid s) d) →
  all_docs P s → all_docs P (store_insert name d s).
Proof.
  intros Hd Hall other. rewrite docs_of_insert. case_decide as Hn; [|done].
  subst other. apply Forall_app. split; [done|]. by apply Forall_singleton.
Qed.

Lemma seed_records (nik : string) (d : doc) :
  (nik, d) ∈ [("EMP001", demo_user); ("555501254121", requested_user)] →
  (nik = "EMP001" ∧ d = demo_user)
  ∨ (nik = "555501254121" ∧ d = requested_user).
Proof.
  intros [[= -> ->]|[[= -> ->]|[]%elem_of_nil]%elem_of_cons]%elem_of_cons; auto.
Qed.

Lemma write_keeps_ids (s s' : database) :
  write s s' → all_docs has_id s → all_docs has_id s'.
Proof.
  intros Hw Hall.
  destruct Hw; apply all_docs_insert; try done; apply with_id_has_id.
Qed.

(** Every stored document keeps carrying an [_id]: if all documents of a
    store have one, so have all documents after any sequence of requests. *)
Theorem store_keeps_ids (py_str : value → string) (rs : list request)
    (w : world) :
  inv (all_docs has_id) w → inv (all_docs has_id) (serve_all py_str rs w).
Proof. apply inv_rtc_write, write_keeps_ids. Qed.

Lemma empty_store_all_docs (P : string → doc → Prop) :
  inv (all_docs P) fresh_world.
Proof. intros s [= <-] name. constructor. Qed.

Lemma store_keeps_ids_witness :
  inv (all_docs has_id)
      (serve_all sample_str
         [Startup; PostLogin demo_login demo_entropy;
          PostTask install_request demo_bearer] fresh_world).
Proof.
  apply (store_keeps_ids sample_str
           [Startup; PostLogin demo_login demo_entropy;
            PostTask install_request demo_bearer] fresh_world).
  apply empty_store_all_docs.
Defined.

Lemma schema_of_employee (d : doc) : schema_of "employee" d ↔ Employee d = true.
Proof. done. Qed.

Lemma schema_of_session (d : doc) : schema_of "session" d ↔ Session d = true.
Proof. done. Qed.

Lemma schema_of_task (d : doc) : schema_of "task" d ↔ Task d = true.
Proof. done. Qed.

Lemma Session_nik_is_str (d : doc) (nik : value) :
  Session d = true → d !! "nik" = Some nik → ∃ n, nik = VStr n.
Proof.
  unfold Session, str_field. intros [_ H]%andb_prop Hn. rewrite Hn in H.
  destruct nik; try done. eauto.
Qed.

Lemma Task_task_doc (o : N) (n : string) (payload : TaskCreateRequest) :
  req_type payload ∈ task_types →
  Task (with_id o (task_doc (VStr n) payload)) = true.
Proof.
  intros Ht. rewrite with_id_fresh by apply task_doc_no_id.
  unfold Task, str_field, literal_field, literal_field_default, opt_dict_field,
    task_doc.
  simplify_map_eq. change (bool_decide (req_type payload ∈ task_types)
                             && true && true = true).
  by rewrite (bool_decide_eq_true_2 _ Ht).
Qed.

Lemma write_keeps_schemas (s s' : database) :
  write s s' → all_docs schema_of s → all_docs schema_of s'.
Proof.
  intros Hw Hall.
  destruct Hw as [nik d Hin Hu|token nik u Hin Hn|d nik payload Hin Hn Hty];
    (apply all_docs_insert; [|exact Hall]).
  - apply schema_of_employee.
    by destruct (seed_records _ _ Hin) as [[-> ->]|[-> ->]].
  - by apply schema_of_session.
  - apply schema_of_task.
    specialize (Hall "session"). rewrite Forall_forall in Hall.
    apply Hall, schema_of_session in Hin.
    destruct (Session_nik_is_str _ _ Hin Hn) as [n ->].
    by apply Task_task_doc.
Qed.

(** The service keeps the store within the schemas of [schemas.py]: if
    every employee, session and task document validates against its
    model, the same holds after any sequence of requests.  In particular
    the type list of [create_task] and the [Literal] of [Task] agree. *)
Theorem store_keeps_schemas (py_str : value → string) (rs : list request)
    (w : world) :
  inv (all_docs schema_of) w → inv (all_docs schema_of) (serve_all py_str rs w).
Proof. apply inv_rtc_write, write_keeps_schemas. Qed.

Lemma store_keeps_schemas_witness :
  inv (all_docs schema_of)
      (serve_all sample_str
         [Startup; PostLogin demo_login demo_entropy;
          PostTask install_request demo_bearer] fresh_world).
Proof.
  apply (store_keeps_schemas sample_str
           [Startup; PostLogin demo_login demo_entropy;
            PostTask install_request demo_bearer] fresh_world).
  apply empty_store_all_docs.
Defined.

Lemma unique_employees_insert (nik : string) (d : doc) (s : database) :
  d !! "nik" = Some (VStr nik) →
  unknown_nik nik s →
  unique_employees s → unique_employees (store_insert "employee" d s).
Proof.
  intros Hd Hu Huniq. unfold unique_employees.
  rewrite docs_of_insert, decide_True by done.
  rewrite omap_app. simpl. rewrite with_id_lookup, Hd by done. simpl.
  apply NoDup_app. split; [done|]. split; [|apply NoDup_singleton].
  intros v (u & Hin & Hv)%list_elem_of_omap ->%list_elem_of_singleton.
  unfold unknown_nik in Hu. rewrite Forall_forall in Hu. by apply (Hu u).
Qed.

(** The service never creates a duplicate employee identifier: if no two
    employee records share an identifier, none do after any sequence of
    requests (only seeding inserts employees, and only missing ones). *)
Theorem employees_stay_unique (py_str : value → string) (rs : list request)
    (w : world) :
  inv unique_employees w → inv unique_employees (serve_all py_str rs w).
Proof.
  apply inv_rtc_write. intros s s' Hw Huniq.
  destruct Hw as [nik d Hin Hu|token nik u Hin Hn|d nik payload Hin Hn Hty].
  - destruct (seed_records _ _ Hin) as [[-> ->]|[-> ->]].
    + by apply (unique_employees_insert "EMP001").
    + by apply (unique_employees_insert "555501254121").
  - unfold unique_employees. by rewrite docs_of_insert, decide_False.
  - unfold unique_employees. by rewrite docs_of_insert, decide_False.
Qed.

Lemma employees_stay_unique_witness :
  inv unique_employees
      (serve_all sample_str
         [Startup; Startup; PostLogin demo_login demo_entropy] fresh_world).
Proof.
  apply (employees_stay_unique sample_str
           [Startup; Startup; PostLogin demo_login demo_entropy] fresh_world).
  intros s [= <-]. constructor.
Defined.

Lemma owned_by_employee_insert (name : string) (d e : doc) (s : database) :
  owned_by_employee s e → owned_by_employee (store_insert name d s) e.
Proof.
  intros (u & nik & Hin & Hu & He). exists u, nik. split; [|done].
  rewrite docs_of_insert. case_decide as Hname; [subst name|done].
  apply elem_of_app. by left.
Qed.

Lemma Forall_owned_insert (name : string) (d : doc) (s : database)
    (l : list doc) :
  Forall (owned_by_employee s) l →
  Forall (owned_by_employee (store_insert name d s)) l.
Proof.
  intros H. eapply Forall_impl; [exact H|].
  intros e. apply owned_by_employee_insert.
Qed.

(** The service keeps sessions and tasks tied to employees on record: if
    every session and every task carries the identifier of a stored
    employee, the same holds after any sequence of requests. *)
Theorem store_stays_referential (py_str : value → string) (rs : list request)
    (w : world) :
  inv referential w → inv referential (serve_all py_str rs w).
Proof.
  apply inv_rtc_write. intros s s' Hw [Hsess Htask].
  destruct Hw as [nik d Hin Hu|token nik u Hin Hn|d nik payload Hin Hn Hty];
    unfold referential; rewrite !docs_of_insert;
    repeat (rewrite decide_True by done || rewrite decide_False by done).
  - split; by apply Forall_owned_insert.
  - split; [|by apply Forall_owned_insert].
    apply Forall_app. split; [by apply Forall_owned_insert|].
    apply Forall_singleton. exists u, (VStr nik).
    rewrite docs_of_insert, decide_False by done. split; [done|].
    split; [done|]. by apply session_doc_fields.
  - split; [by apply Forall_owned_insert|].
    apply Forall_app. split; [by apply Forall_owned_insert|].
    apply Forall_singleton. rewrite Forall_forall in Hsess.
    destruct (Hsess d Hin) as (u & nik' & Hu & Hun & Hdn).
    rewrite Hn in Hdn. injection Hdn as <-. exists u, nik.
    rewrite docs_of_insert, decide_False by done. split; [done|].
    split; [done|]. rewrite with_id_lookup by done. unfold task_doc.
    by simplify_map_eq.
Qed.

Lemma store_stays_referential_witness :
  inv referential
      (serve_all sample_str
         [Startup; PostLogin demo_login demo_entropy;
          PostTask install_request demo_bearer] fresh_world).
Proof.
  apply (store_stays_referential sample_str
           [Startup; PostLogin demo_login demo_entropy;
            PostTask install_request demo_bearer] fresh_world).
  intros s [= <-]. split; constructor.
Defined.

(** ** What the invariants buy *)

Lemma opt_str_field_display (d : doc) (k : string) :
  opt_str_field d k = true → display_ok (dict_get d k).
Proof.
  unfold opt_str_field, dict_get, display_ok.
  destruct (d !! k) as [[]|]; simpl; try done; eauto.
Qed.

(** On a store whose employees validate against the [Employee] model,
    login can only be refused with one of its two 401s: building the
    response never fails. *)
Theorem login_conformant_errors (payload : LoginRequest) (entropy : list byte)
    (w : world) (s : database) (e : error) :
  db w = Some s →
  all_docs schema_of s →
  (login payload entropy w).1 = Raises e →
  e = HTTPException 401 "NIK tidak ditemukan"
  ∨ e = HTTPException 401 "Password salah".
Proof.
  intros Hdb Hall. destruct w as [o cs]. simpl in Hdb. subst o.
  rewrite login_configured. cbn zeta.
  destruct (first_match _ _) as [u|] eqn:Hu; [|intros [= <-]; by left].
  case_bool_decide; [|intros [= <-]; by right].
  apply first_match_Some in Hu as [Hin _].
  specialize (Hall "employee"). rewrite Forall_forall in Hall.
  apply Hall, schema_of_employee in Hin. unfold Employee in Hin.
  repeat (apply andb_prop in Hin as [Hin ?]).
  by rewrite make_LoginResponse_run by by apply opt_str_field_display.
Qed.

Lemma seeded_store_conforms : all_docs schema_of seeded_store.
Proof.
  apply (inv_rtc_write (all_docs schema_of) sample_str [Startup] fresh_world
           write_keeps_schemas (empty_store_all_docs _)).
  reflexivity.
Qed.

Lemma login_conformant_errors_witness :
  HTTPException 401 "NIK tidak ditemukan" = HTTPException 401 "NIK tidak ditemukan"
  ∨ HTTPException 401 "NIK tidak ditemukan" = HTTPException 401 "Password salah".
Proof.
  apply (login_conformant_errors {| req_nik := "EMP999"; req_password := "x" |}
           demo_entropy seeded_world seeded_store
           (HTTPException 401 "NIK tidak ditemukan")
           seeded_world_db seeded_store_conforms).
  reflexivity.
Defined.

Section Listings.

Variable py_str : value → string.

(** On a store where every document has its [_id], as the driver
    guarantees, every record of a successful listing carries an [id] and
    no [_id]. *)
Theorem listed_records_have_id (authorization : option string) (w : world)
    (s : database) (rs : list doc) :
  db w = Some s →
  all_docs has_id s →
  (list_my_tasks py_str authorization w).1 = Returns rs →
  Forall (λ r : doc, is_Some (r !! "id") ∧ r !! "_id" = None) rs.
Proof.
  intros Hdb Hall Hrun.
  destruct (bearer_token_returns authorization w) as (token & Hb & _).
  destruct (auth_dependency token w) as [[nik|e] w1] eqn:Ha.
  2:{ by rewrite (list_my_tasks_after_auth _ _ _ _ Hb), Ha in Hrun. }
  assert (authenticated authorization w nik w1) as Hauth by by exists token.
  rewrite (list_my_tasks_run _ _ _ _ _ _ Hauth Hdb) in Hrun.
  injection Hrun as <-. apply Forall_fmap, Forall_take, Forall_forall.
  intros t [Hin _]%list_elem_of_In%filter_In. simpl.
  split; [|apply expose_id_internal].
  specialize (Hall "task"). rewrite Forall_forall in Hall.
  destruct (Hall t) as [i Hi]; [by apply list_elem_of_In|].
  rewrite (expose_id_uniform _ _ _ Hi). eauto.
Qed.

End Listings.

Lemma seeded_store_has_ids : all_docs has_id seeded_store.
Proof.
  apply (inv_rtc_write (all_docs has_id) sample_str [Startup] fresh_world
           write_keeps_ids (empty_store_all_docs _)).
  reflexivity.
Qed.

Lemma tasked_store_has_ids : all_docs has_id tasked_store.
Proof.
  apply (inv_rtc_write (all_docs has_id) sample_str
           [Startup; PostLogin demo_login demo_entropy;
            PostTask install_request demo_bearer] fresh_world
           write_keeps_ids (empty_store_all_docs _)).
  reflexivity.
Qed.

Lemma listed_records_have_id_witness :
  Forall (λ r : doc, is_Some (r !! "id") ∧ r !! "_id" = None)
    [ <["id" := VStr "3"]> (task_doc (VStr "EMP001") install_request) ].
Proof.
  apply (listed_records_have_id sample_str demo_bearer tasked_world
           tasked_store _ eq_refl tasked_store_has_ids).
  apply (f_equal Returns). apply (bool_decide_unpack _). vm_compute. exact I.
Defined.


(** ** The diagnostic route *)

Example str_take_accented : str_take 2 "héllo" = "hé".
Proof. reflexivity. Qed.

Example str_chars_accented :
  str_chars "héllo" = 5%nat ∧ String.length "héllo" = 6%nat.
Proof. split; reflexivity. Qed.

(** Sixty accented letters, two bytes each: the cut keeps fifty letters,
    a hundred bytes. *)
Example str_take_sixty_accented :
  str_take 50 "éééééééééééééééééééééééééééééééééééééééééééééééééééééééééééé"
  = "éééééééééééééééééééééééééééééééééééééééééééééééééé"
  ∧ String.length (str_take 50 "éééééééééééééééééééééééééééééééééééééééééééééééééééééééééééé") = 100%nat.
Proof. split; reflexivity. Qed.



(** The diagnostic response never reports a connection: its
    [connection_status] stays "Not Connected" and its [backend] stays
    "✅ Running" whatever the store, the environment and the driver do,
    also when the store is connected and working. *)
Theorem diagnostics_never_connected (getenv : string → option string)
    (names : string + list string) (w : world) :
  diag_connection_status (test_database getenv names w) = "Not Connected"
  ∧ diag_backend (test_database getenv names w) = "✅ Running".
Proof. unfold test_database. by destruct (db w), names. Qed.


(** With no database handle the diagnostic route consults neither the
    environment nor the driver: its response is the same whatever they
    hold, with no URL or name status and no collections. *)
Theorem diagnostics_unconfigured (getenv getenv' : string → option string)
    (names names' : string + list string) (w : world) :
  db w = None →
  test_database getenv names w = test_database getenv' names' w
  ∧ diag_database (test_database getenv names w)
      = "⚠️ Available but not initialized"
  ∧ diag_database_url (test_database getenv names w) = None
  ∧ diag_database_name (test_database getenv names w) = None
  ∧ diag_collections (test_database getenv names w) = [].
Proof. intros Hdb. unfold test_database. by rewrite Hdb. Qed.

Lemma diagnostics_unconfigured_witness :
  test_database (λ _, Some "mongodb://localhost") (inl "refused")
    (World None []) =
  test_database (λ _, None) (inr ["task"]) (World None []).
Proof.
  apply (diagnostics_unconfigured (λ _, Some "mongodb://localhost") (λ _, None)
           (inl "refused") (inr ["task"]) (World None []) eq_refl).
Defined.


(** ** Distinct draws *)

Section Draws.

Variable py_str : value → string.

Lemma docs_of_seed_if_absent_other (nik name : string) (d : doc) (s : database) :
  name ≠ "employee" → docs_of (seed_if_absent nik d s) name = docs_of s name.
Proof.
  intros Hn. unfold seed_if_absent. case_decide; [|done].
  by rewrite docs_of_insert, decide_False.
Qed.

Lemma create_task_sessions payload authorization (s : database) cs :
  ∃ s', db (create_task py_str payload authorization (World (Some s) cs)).2
          = Some s'
        ∧ docs_of s' "session" = docs_of s "session".
Proof.
  destruct (bearer_token_returns authorization (World (Some s) cs))
    as (token & Hb & _).
  rewrite (create_task_after_auth _ _ _ _ _ Hb).
  destruct (str_truthy token) eqn:Ht;
    [|rewrite auth_dependency_no_token by done; by exists s].
  destruct token as [tok|]; [|done].
  assert (tok ≠ EmptyString) as Hne by (intros ->; discriminate).
  rewrite auth_dependency_configured by done. cbn zeta.
  destruct (first_match _ _) as [d|]; [|by exists s].
  destruct (d !! "nik") as [nik|]; [|by exists s].
  case_bool_decide; [|by exists s].
  unfold bind. rewrite create_document_configured by apply task_doc_no_id.
  eexists. split; [reflexivity|]. by rewrite docs_of_insert, decide_False.
Qed.

(** The sessions a request leaves: those it found, and after a login
    that went through, one more, carrying the print of its draw. *)
Lemma serve_sessions (r : request) (w : world) (s : database) :
  db w = Some s →
  ∃ s', db (serve py_str r w).2 = Some s'
        ∧ (docs_of s' "session" = docs_of s "session"
           ∨ ∃ payload entropy,
               r = PostLogin payload entropy
               ∧ docs_of s' "session" =
                   docs_of s "session"
                   ++ [with_id (next_oid s)
                         (session_doc (token_hex entropy) (req_nik payload))]).
Proof.
  intros Hdb. destruct r as [|token|payload entropy|payload a|a]; simpl.
  - destruct (seed_employee_world w s Hdb) as (cs' & ->). eexists.
    split; [reflexivity|]. left.
    by rewrite !docs_of_seed_if_absent_other.
  - exists s. split; [by rewrite auth_dependency_db|by left].
  - destruct w as [o cs]. simpl in Hdb. subst o.
    rewrite login_configured. cbn zeta.
    destruct (first_match _ _) as [u|]; [|exists s; split; [done|by left]].
    case_bool_decide; [|exists s; split; [done|by left]].
    rewrite make_LoginResponse_world. eexists. split; [reflexivity|].
    right. exists payload, entropy. split; [done|].
    by rewrite docs_of_insert, decide_True.
  - destruct w as [o cs]. simpl in Hdb. subst o.
    destruct (create_task_sessions payload a s cs) as (s' & Hs' & He).
    exists s'. split; [done|by left].
  - exists s. split; [by rewrite list_my_tasks_db|by left].
Qed.

Lemma serve_all_issued (rs : list request) (es : list (list byte))
    (w : world) (s : database) :
  db w = Some s → issued_from es s →
  ∃ s', db (serve_all py_str rs w) = Some s' ∧ issued_from (es ++ draws rs) s'.
Proof.
  revert es w s. induction rs as [|r rs IH]; intros es w s Hdb Hi.
  { exists s. split; [done|]. unfold draws. simpl. by rewrite app_nil_r. }
  destruct (serve_sessions r w s Hdb) as (s1 & Hs1 & Hsess).
  assert (issued_from (es ++ draws [r]) s1) as Hi1.
  { unfold issued_from. destruct Hsess as [->|(p & e & -> & ->)].
    - eapply Forall_impl; [exact Hi|]. intros d (e & He & Hd). exists e.
      split; [|done]. apply elem_of_app. by left.
    - apply Forall_app. split.
      + eapply Forall_impl; [exact Hi|]. intros d (e' & He & Hd). exists e'.
        split; [|done]. apply elem_of_app. by left.
      + apply Forall_singleton. exists e. split.
        * apply elem_of_app. right. unfold draws. simpl. by left.
        * by apply session_doc_fields. }
  destruct (IH _ _ _ Hs1 Hi1) as (s' & Hs' & Hi'). exists s'.
  split; [exact Hs'|]. unfold draws in *. simpl in *.
  destruct (drawn r); simpl in *; by rewrite <- ?app_assoc in Hi'.
Qed.

Lemma token_hex_injective (e e' : list byte) :
  token_hex e = token_hex e' → e = e'.
Proof.
  unfold token_hex. intros H. apply (f_equal unhexlify) in H.
  rewrite !unhexlify_hexlify in H. by injection H.
Qed.

Lemma unbound_after_login payload entropy (w w1 : world) (s : database) resp
    (rs : list request) :
  db w = Some s →
  entropy ≠ [] →
  unbound_token (token_hex entropy) s →
  login payload entropy w = (Returns resp, w1) →
  ∃ w2, auth_dependency (Some (resp_token resp)) (serve_all py_str rs w1) =
          (Returns (VStr (req_nik payload)), w2).
Proof.
  intros Hdb Hne Hfresh Hlogin. destruct w as [o cs]. simpl in Hdb. subst o.
  apply login_success_inv in Hlogin as (-> & _ & Hdb1).
  apply token_hex_nonempty in Hne.
  destruct (serve_all_grows py_str rs w1 _ Hdb1) as (s2 & Hdb2 & Hext).
  destruct (Hext "session") as [ext Hsess].
  rewrite docs_of_insert, decide_True in Hsess by done.
  destruct (serve_all py_str rs w1) as [o2 cs2]. simpl in Hdb2. subst o2.
  rewrite auth_dependency_configured by done. cbn zeta.
  rewrite Hsess, <- app_assoc. cbn [app].
  rewrite (first_match_split ("token", VStr (token_hex entropy)));
    [|done|by apply session_doc_fields].
  destruct (session_doc_fields (token_hex entropy) (req_nik payload)
              (next_oid s)) as [_ Hn].
  rewrite Hn. by eexists.
Qed.

(** When draws do not repeat, tokens work.  On a configured store whose
    sessions carry the prints of the draws [es], let a run of requests be
    followed by a login that succeeds on sixteen bytes drawn neither in
    [es] nor by a login of the run: after any further requests, the token
    it returned authenticates as the identifier that logged in. *)
Theorem distinct_draws_authenticate (before after : list request)
    (es : list (list byte)) (payload : LoginRequest) (entropy : list byte)
    (w w1 : world) (s : database) (resp : LoginResponse) :
  db w = Some s →
  issued_from es s →
  entropy ∉ es ++ draws before →
  List.length entropy = 16%nat →
  login payload entropy (serve_all py_str before w) = (Returns resp, w1) →
  ∃ w2,
    auth_dependency (Some (resp_token resp))
      (serve_all py_str (before ++ PostLogin payload entropy :: after) w)
    = (Returns (VStr (req_nik payload)), w2).
Proof.
  intros Hdb Hi Hnew Hlen Hlogin.
  destruct (serve_all_issued before es w s Hdb Hi) as (sb & Hsb & Hib).
  assert (unbound_token (token_hex entropy) sb) as Hfresh.
  { unfold unbound_token. eapply Forall_impl; [exact Hib|].
    intros d (e & He & Hd) Hd'. rewrite Hd in Hd'. injection Hd' as Heq.
    apply token_hex_injective in Heq. by subst e. }
  unfold serve_all. rewrite foldl_app. cbn [foldl serve].
  fold (serve_all py_str before w). rewrite Hlogin. cbn [prod_map snd id].
  fold (serve_all py_str after w1).
  apply (unbound_after_login payload entropy (serve_all py_str before w) w1
           sb resp after); try done.
  by destruct entropy.
Qed.

End Draws.

Lemma distinct_draws_authenticate_witness :
  ∃ w2,
    auth_dependency (Some (token_hex demo_entropy))
      (serve_all sample_str
         ([Startup; PostLogin other_login other_entropy]
          ++ PostLogin demo_login demo_entropy
             :: [PostTask install_request demo_bearer]) fresh_world)
    = (Returns (VStr "EMP001"), w2).
Proof.
  apply (distinct_draws_authenticate sample_str
           [Startup; PostLogin other_login other_entropy]
           [PostTask install_request demo_bearer] []
           demo_login demo_entropy fresh_world
           (login demo_login demo_entropy
              (serve_all sample_str
                 [Startup; PostLogin other_login other_entropy]
                 fresh_world)).2
           empty_store
           {| resp_token := token_hex demo_entropy; resp_nik := "EMP001";
              resp_name := Some "Demo User"; resp_division := Some "IT" |}).
  - reflexivity.
  - constructor.
  - intros Hin. apply list_elem_of_In in Hin. simpl in Hin.
    destruct Hin as [Heq|[]]. discriminate Heq.
  - reflexivity.
  - reflexivity.
Defined.
